(** * epsilon-langchain-rag: the CSV agent of [agent.py]

    A shallow embedding of [agent.py]: the row flattener
    [load_csv_documents], the start-up block of [main] that builds or
    loads the FAISS index, and the per-query handler of [main].

    Python text is a sequence of Unicode code points, Streamlit calls and
    the calls to the embedding, index and agent libraries are recorded as
    events, and exceptions are threaded through a state-and-error monad in
    which the state survives a raise, as Python's mutable objects do.
    The check of [OPENAI_API_KEY] in lines 23-29 is taken to have passed. *)

From Stdlib Require Import String Ascii List NArith ZArith Bool Lia.
From Stdlib Require Import DecimalString Permutation.
Import ListNotations.

(** ** Python text *)

Module Py.

(** A [str] is the list of its code points. *)
Definition str := list N.

(** Decoding of the UTF-8 bytes of a literal of this file. *)
Fixpoint utf8_decode (bs : list N) : str :=
  match bs with
  | [] => []
  | b0 :: tl =>
    if (b0 <? 128)%N then b0 :: utf8_decode tl
    else if (b0 <? 224)%N then
      match tl with
      | b1 :: tl1 => ((b0 mod 32) * 64 + b1 mod 64)%N :: utf8_decode tl1
      | _ => []
      end
    else if (b0 <? 240)%N then
      match tl with
      | b1 :: b2 :: tl2 =>
        ((b0 mod 16) * 4096 + (b1 mod 64) * 64 + b2 mod 64)%N :: utf8_decode tl2
      | _ => []
      end
    else
      match tl with
      | b1 :: b2 :: b3 :: tl3 =>
        ((b0 mod 8) * 262144 + (b1 mod 64) * 4096 + (b2 mod 64) * 64 + b3 mod 64)%N
          :: utf8_decode tl3
      | _ => []
      end
  end.

Definition lit (s : string) : str :=
  utf8_decode (map N_of_ascii (list_ascii_of_string s)).

(** [sep.join(xs)] *)
Fixpoint join (sep : str) (xs : list str) : str :=
  match xs with
  | [] => []
  | [x] => x
  | x :: rest => x ++ sep ++ join sep rest
  end.

(** [str.isspace] on one code point: the Unicode white space of CPython. *)
Definition isspace (c : N) : bool :=
  ((9 <=? c) && (c <=? 13) || (28 <=? c) && (c <=? 32)
   || (c =? 133) || (c =? 160) || (c =? 5760)
   || (8192 <=? c) && (c <=? 8202)
   || (c =? 8232) || (c =? 8233) || (c =? 8239) || (c =? 8287)
   || (c =? 12288))%N.

Fixpoint lstrip (s : str) : str :=
  match s with
  | c :: tl => if isspace c then lstrip tl else s
  | [] => []
  end.

Definition rstrip (s : str) : str := rev (lstrip (rev s)).

(** [s.strip()] *)
Definition strip (s : str) : str := rstrip (lstrip s).

(** [a == b] on text *)
Fixpoint str_eqb (a b : str) : bool :=
  match a, b with
  | [], [] => true
  | x :: a', y :: b' => (x =? y)%N && str_eqb a' b'
  | _, _ => false
  end.

(** [a <= b] on text: lexicographic on code points. *)
Fixpoint str_leb (a b : str) : bool :=
  match a, b with
  | [], _ => true
  | _ :: _, [] => false
  | x :: a', y :: b' => (x <? y)%N || (x =? y)%N && str_leb a' b'
  end.

(** [x in xs] for a list of text *)
Definition contains (xs : list str) (x : str) : bool := existsb (str_eqb x) xs.

(** [a == b] on lists of text *)
Fixpoint list_eqb (a b : list str) : bool :=
  match a, b with
  | [], [] => true
  | x :: a', y :: b' => str_eqb x y && list_eqb a' b'
  | _, _ => false
  end.

Fixpoint insert_sorted (x : str) (xs : list str) : list str :=
  match xs with
  | [] => [x]
  | y :: tl => if str_leb x y then x :: xs else y :: insert_sorted x tl
  end.

(** [sorted(xs)] for a list of text. *)
Definition sorted (xs : list str) : list str :=
  fold_right insert_sorted [] xs.

(** [str(z)] for an integer. *)
Definition str_of_Z (z : Z) : str :=
  map N_of_ascii (list_ascii_of_string (NilZero.string_of_int (Z.to_int z))).

End Py.
Import Py.

Arguments contains : simpl never.
Arguments lit : simpl never.

(** ** Tables, documents and exceptions *)

(** A cell as a row [Series] holds it.  A float carries the text Python
    prints for it; its arithmetic plays no part here. *)
Inductive value :=
| VInt (z : Z)
| VFloat (text : str)
| VStr (s : str)
| VBool (b : bool).

(** [f"{val}"] *)
Definition format_value (v : value) : str :=
  match v with
  | VInt z => str_of_Z z
  | VFloat text => text
  | VStr s => s
  | VBool true => lit "True"
  | VBool false => lit "False"
  end.

(** A [DataFrame]: the column names and, per row, its index label and its
    cells in column order. *)
Record DataFrame := {
  columns : list str;
  rows : list (value * list value)
}.

(** [df.iterrows()]: the index label of each row with its [row.items()]. *)
Definition iterrows (df : DataFrame) : list (value * list (str * value)) :=
  map (fun r => (fst r, combine (columns df) (snd r))) (rows df).

(** The index [read_csv] gives a frame when the file has as many fields per
    row as its header: [RangeIndex(0, n)]. *)
Definition range_index (n : nat) : list value :=
  map (fun i => VInt (Z.of_nat i)) (seq 0 n).

Definition has_range_index (df : DataFrame) : Prop :=
  map fst (rows df) = range_index (length (rows df)).

(** [Document(page_content=..., metadata={"source": ..., "row_index": ...})] *)
Record Document := {
  page_content : str;
  source : str;
  row_index : value
}.

(** An exception, as [str(e)] shows it. *)
Inductive Exception := Exc (text : str).

Definition exc_text (e : Exception) : str := let (t) := e in t.

(** [{"role": ..., "content": ...}] *)
Record message := {
  role : str;
  content : str
}.

(** The dictionary [AgentExecutor.invoke] returns; [output] is [None] when
    the key is absent. *)
Record response := {
  output : option str
}.

(** What the script shows and which library calls with an outside effect it
    makes, in order. *)
Inductive event :=
| Title (text : str)                       (* st.title *)
| Error (text : str)                       (* st.error *)
| Success (text : str)                     (* st.success *)
| Info (text : str)                        (* st.info *)
| Image (path caption : str)               (* st.image *)
| ChatMessage (who text : str)             (* with st.chat_message: st.markdown *)
| ChatInput (placeholder : str) (disabled : bool)
| EmbedAndIndex (docs : list Document)     (* FAISS.from_documents *)
| SaveLocal (folder : str)                 (* FAISS.save_local *)
| LoadLocal (folder : str)                 (* FAISS.load_local *)
| Invoke (question : str).                 (* AgentExecutor.invoke *)

(** ** The libraries the script calls *)

Class Externals := {
  (** [pd.read_csv(path)] *)
  read_csv : str -> Exception + DataFrame;
  FAISS : Type;
  AgentExecutor : Type;
  (** [RecursiveCharacterTextSplitter(chunk_size, chunk_overlap).split_documents] *)
  splitter_split_documents : nat -> nat -> list Document -> list Document;
  (** [FAISS.from_documents(documents, OpenAIEmbeddings(model))] *)
  faiss_from_documents : list Document -> str -> Exception + FAISS;
  (** [vector_store.save_local(folder)] *)
  faiss_save_local : FAISS -> str -> Exception + unit;
  (** [FAISS.load_local(folder, OpenAIEmbeddings(model))] *)
  faiss_load_local : str -> str -> Exception + FAISS;
  (** [AgentExecutor(agent, tools, memory, max_iterations)] over a retriever
      of the store with the given [k] *)
  new_agent_executor : FAISS -> nat -> nat -> Exception + AgentExecutor;
  (** [agent_executor.invoke({"question": query})]: the result, and the
      executor with the memory it has then *)
  agent_invoke : AgentExecutor -> str -> (Exception + response) * AgentExecutor;
  (** [os.path.exists] *)
  os_path_exists : str -> bool;
  (** [str.lower] *)
  lower : str -> str
}.

Section Agent.

Context `{Ext : Externals}.

(** ** Session state and the monad of the script *)

(** [st.session_state] once lines 233-242 have given every key a value. *)
Record session_state := {
  vector_store : option FAISS;
  agent_executor : option AgentExecutor;
  file_names : list str;
  messages : list message;
  is_initialized : bool
}.

(** [st.session_state] as a dictionary: [None] is an absent key. *)
Record session_dict := {
  d_vector_store : option (option FAISS);
  d_agent_executor : option (option AgentExecutor);
  d_file_names : option (list str);
  d_messages : option (list message);
  d_is_initialized : option bool
}.

(** The dictionary of a new session, in particular after a restart of the
    process. *)
Definition empty_session : session_dict :=
  {| d_vector_store := None; d_agent_executor := None; d_file_names := None;
     d_messages := None; d_is_initialized := None |}.

Definition setdefault {A} (x : option A) (d : A) : A :=
  match x with Some a => a | None => d end.

(** Lines 233-242 of [main]. *)
Definition with_defaults (d : session_dict) : session_state :=
  {| vector_store := setdefault (d_vector_store d) None;
     agent_executor := setdefault (d_agent_executor d) None;
     file_names := setdefault (d_file_names d) [];
     messages := setdefault (d_messages d) [];
     is_initialized := setdefault (d_is_initialized d) false |}.

Record world := {
  session : session_state;
  out : list event
}.

(** A computation returns a value or raises; the world it leaves is kept in
    both cases. *)
Definition M (A : Type) : Type := world -> (Exception + A) * world.

Definition ret {A} (a : A) : M A := fun w => (inr a, w).

Definition raise {A} (e : Exception) : M A := fun w => (inl e, w).

Definition bind {A B} (c : M A) (k : A -> M B) : M B :=
  fun w =>
    match c w with
    | (inr a, w') => k a w'
    | (inl e, w') => (inl e, w')
    end.

(** [try: body / except Exception as e: handler e] *)
Definition try_except {A} (body : M A) (handler : Exception -> M A) : M A :=
  fun w =>
    match body w with
    | (inr a, w') => (inr a, w')
    | (inl e, w') => handler e w'
    end.

Definition lift {A} (r : Exception + A) : M A := fun w => (r, w).

Definition emit (e : event) : M unit :=
  fun w => (inr tt, {| session := session w; out := out w ++ [e] |}).

Definition get : M session_state := fun w => (inr (session w), w).

Definition modify (f : session_state -> session_state) : M unit :=
  fun w => (inr tt, {| session := f (session w); out := out w |}).

Definition set_vector_store (v : option FAISS) (s : session_state) :=
  {| vector_store := v; agent_executor := agent_executor s;
     file_names := file_names s; messages := messages s;
     is_initialized := is_initialized s |}.

Definition set_agent_executor (a : option AgentExecutor) (s : session_state) :=
  {| vector_store := vector_store s; agent_executor := a;
     file_names := file_names s; messages := messages s;
     is_initialized := is_initialized s |}.

Definition set_file_names (l : list str) (s : session_state) :=
  {| vector_store := vector_store s; agent_executor := agent_executor s;
     file_names := l; messages := messages s;
     is_initialized := is_initialized s |}.

Definition set_is_initialized (b : bool) (s : session_state) :=
  {| vector_store := vector_store s; agent_executor := agent_executor s;
     file_names := file_names s; messages := messages s;
     is_initialized := b |}.

(** [st.session_state.messages.append(m)] *)
Definition append_message (m : message) (s : session_state) :=
  {| vector_store := vector_store s; agent_executor := agent_executor s;
     file_names := file_names s; messages := messages s ++ [m];
     is_initialized := is_initialized s |}.

Notation "x <- c ;; k" := (bind c (fun x => k))
  (at level 61, c at next level, right associativity).
Notation "c ;;; k" := (bind c (fun _ => k))
  (at level 61, right associativity).

(** [for x in xs: body x] *)
Fixpoint for_each {A} (xs : list A) (body : A -> M unit) : M unit :=
  match xs with
  | [] => ret tt
  | x :: tl => body x ;;; for_each tl body
  end.

(** ** [load_csv_documents] *)

(** [", ".join([f"{col}: {val}" for col, val in row.items()])] *)
Definition row_content (items : list (str * value)) : str :=
  join (lit ", ") (map (fun cv => fst cv ++ lit ": " ++ format_value (snd cv)) items).

(** The loop over [df.iterrows()], appending to [documents]. *)
Fixpoint append_rows (csv_path : str) (its : list (value * list (str * value)))
    (documents : list Document) : list Document :=
  match its with
  | [] => documents
  | (idx, row) :: tl =>
    let doc := {| page_content := row_content row; source := csv_path; row_index := idx |} in
    append_rows csv_path tl (documents ++ [doc])
  end.

(** The loop over [csv_paths], with [documents] as it stands. *)
Fixpoint load_csv_loop (csv_paths : list str) (documents : list Document)
    : M (list Document) :=
  match csv_paths with
  | [] => ret documents
  | csv_path :: tl =>
    documents' <-
      try_except
        (df <- lift (read_csv csv_path) ;;
         ret (append_rows csv_path (iterrows df) documents))
        (fun e =>
           emit (Error (lit "Error loading " ++ csv_path ++ lit ": " ++ exc_text e)) ;;;
           ret documents) ;;
    load_csv_loop tl documents'
  end.

Definition load_csv_documents (csv_paths : list str) : M (list Document) :=
  load_csv_loop csv_paths [].

(** *** One file at a time

    The document of one row, what one path adds to [documents] and what it
    shows; [load_csv_documents] is put in these terms by
    [load_csv_documents_run]. *)

Definition make_document (csv_path : str) (it : value * list (str * value)) : Document :=
  {| page_content := row_content (snd it); source := csv_path; row_index := fst it |}.

Definition file_documents (csv_path : str) : list Document :=
  match read_csv csv_path with
  | inr df => map (make_document csv_path) (iterrows df)
  | inl _ => []
  end.

Definition file_errors (csv_path : str) : list event :=
  match read_csv csv_path with
  | inr _ => []
  | inl e => [Error (lit "Error loading " ++ csv_path ++ lit ": " ++ exc_text e)]
  end.

(** The world after showing [evs]. *)
Definition log (evs : list event) (w : world) : world :=
  {| session := session w; out := out w ++ evs |}.

(** ** The index and the agent *)

Definition embedding_model : str := lit "text-embedding-3-small".
Definition faiss_index : str := lit "faiss_index".

Definition split_documents (documents : list Document) : list Document :=
  splitter_split_documents 1000 200 documents.

Definition create_vector_store (documents : list Document) : M FAISS :=
  emit (EmbedAndIndex documents) ;;;
  vector_store <- lift (faiss_from_documents documents embedding_model) ;;
  emit (SaveLocal faiss_index) ;;;
  lift (faiss_save_local vector_store faiss_index) ;;;
  ret vector_store.

Definition load_existing_vector_store : M FAISS :=
  emit (LoadLocal faiss_index) ;;;
  lift (faiss_load_local faiss_index embedding_model).

(** [create_agent]: a retriever with [k = 15] and [max_iterations = 3]. *)
Definition create_agent (vector_store : FAISS) : M AgentExecutor :=
  lift (new_agent_executor vector_store 15 3).

(** ** [main] *)

Definition no_valid_csv : str :=
  lit "No valid CSV data loaded. Check file paths and formats.".

(** [current_file_names != st.session_state.file_names
     or not st.session_state.vector_store] *)
Definition needs_rebuild (current_file_names : list str) (s : session_state) : bool :=
  negb (list_eqb current_file_names (file_names s))
  || match vector_store s with Some _ => false | None => true end.

(** The block under [if not st.session_state.is_initialized]; the result is
    [true] when it ends in the [return] that leaves [main]. *)
Definition initialize (csv_paths : list str) : M bool :=
  let current_file_names := sorted csv_paths in
  s <- get ;;
  if needs_rebuild current_file_names s then
    modify (set_file_names current_file_names) ;;;
    documents <- load_csv_documents csv_paths ;;
    match documents with
    | [] => emit (Error no_valid_csv) ;;; ret true
    | _ :: _ =>
      let split_docs := split_documents documents in
      vs <- create_vector_store split_docs ;;
      modify (set_vector_store (Some vs)) ;;;
      ae <- create_agent vs ;;
      modify (set_agent_executor (Some ae)) ;;;
      modify (set_is_initialized true) ;;;
      emit (Success (lit "CSV files processed and vector store created.")) ;;;
      ret false
    end
  else
    vs <- load_existing_vector_store ;;
    modify (set_vector_store (Some vs)) ;;;
    s' <- get ;;
    match agent_executor s' with
    | Some _ => ret tt
    | None =>
      ae <- create_agent vs ;;
      modify (set_agent_executor (Some ae))
    end ;;;
    modify (set_is_initialized true) ;;;
    emit (Info (lit "Using existing vector store.")) ;;;
    ret false.

Definition target_queries : list str :=
  [ lit "построй и проанализируй график прогнозов по основным операционным метрикам (доходы, расходы, arpu, churn/отток) на ближайшие 12 месяцев.";
    lit "построй график прогнозов по операционным показателям на максимально возможный период и интерпретируй его." ].

Definition image_path : str := lit "images/123.png".
Definition image_caption : str := lit "Прогнозы по операционным показателям".
Definition graph_answer : str :=
  lit "Прогнозы по операционным показателям представлены на графике выше.".
Definition graph_apology : str :=
  lit "Извините, не получилось сгенерировать график".

Definition user_message (query : str) : message :=
  {| role := lit "user"; content := query |}.
Definition assistant_message (answer : str) : message :=
  {| role := lit "assistant"; content := answer |}.

(** [st.session_state.agent_executor.invoke({"question": query})]; the
    executor of the session is the object the call works on. *)
Definition invoke_agent (query : str) : M response :=
  s <- get ;;
  match agent_executor s with
  | None => raise (Exc (lit "'NoneType' object has no attribute 'invoke'"))
  | Some ae =>
    emit (Invoke query) ;;;
    let (r, ae') := agent_invoke ae query in
    modify (set_agent_executor (Some ae')) ;;;
    lift r
  end.

(** The body of the [try] of [main].  The pause that pads the call to three
    seconds reads and writes nothing of the session and is left out. *)
Definition answer_query (query : str) : M unit :=
  response <- invoke_agent query ;;
  answer <- match output response with
            | Some a => ret a
            | None => raise (Exc (lit "'output'"))
            end ;;
  answer <-
    (if contains target_queries (lower (strip query)) then
       if os_path_exists image_path then
         emit (Image image_path image_caption) ;;;
         ret graph_answer
       else ret graph_apology
     else ret answer) ;;
  modify (append_message (assistant_message answer)) ;;;
  emit (ChatMessage (lit "assistant") answer).

(** The block under [if query:]. *)
Definition handle_query (query : str) : M unit :=
  modify (append_message (user_message query)) ;;;
  emit (ChatMessage (lit "user") query) ;;;
  try_except
    (answer_query query)
    (fun e => emit (Error (lit "Error processing query: " ++ exc_text e))).

Definition placeholder (initialized : bool) : str :=
  if initialized then lit "Enter your question about the CSV data..."
  else lit "Please wait, processing CSV files...".

(** Lines 265-302 of [main]: the history, the chat box and the query;
    [typed] is what the user has submitted in the chat box, if anything. *)
Definition serve (typed : option str) : M unit :=
  s <- get ;;
  for_each (messages s) (fun m => emit (ChatMessage (role m) (content m))) ;;;
  emit (ChatInput (placeholder (is_initialized s)) (negb (is_initialized s))) ;;;
  let query := if is_initialized s then typed else None in
  match query with
  | Some (c :: q) => handle_query (c :: q)
  | _ => ret tt
  end.

(** [main], from line 244 on, over the list [csv_paths] of line 227. *)
Definition main_on (csv_paths : list str) (typed : option str) : M unit :=
  emit (Title (lit "epsilon3.ai Agent")) ;;;
  s <- get ;;
  returned <- (if negb (is_initialized s) then initialize csv_paths else ret false) ;;
  if returned then ret tt else serve typed.

Definition csv_paths : list str :=
  [ lit "csv_data/main_metrics.csv";
    lit "csv_data/var1_correlations.csv";
    lit "csv_data/var2_data_with_forecast_without_in&outcome.csv" ].

Definition main (typed : option str) : M unit := main_on csv_paths typed.

(** What a run on an initialised session shows before it turns to the
    query: the title, the history and the chat box. *)
Definition page_head (s : session_state) : list event :=
  Title (lit "epsilon3.ai Agent")
  :: map (fun m => ChatMessage (role m) (content m)) (messages s)
  ++ [ChatInput (placeholder true) false].

(** The world at the [try] of [main], for the query [query]. *)
Definition at_try (query : str) (w : world) : world :=
  {| session := append_message (user_message query) (session w);
     out := out w ++ page_head (session w) ++ [ChatMessage (lit "user") query] |}.

(** The answer to a graph request. *)
Definition graph_reply : str :=
  if os_path_exists image_path then graph_answer else graph_apology.

(** What a graph request shows after the call of the agent. *)
Definition graph_shown : list event :=
  (if os_path_exists image_path then [Image image_path image_caption] else [])
  ++ [ChatMessage (lit "assistant") graph_reply].

(** The world [w] with the executor [ae] in its session. *)
Definition with_agent (ae : AgentExecutor) (w : world) : world :=
  {| session := set_agent_executor (Some ae) (session w); out := out w |}.

(** The events of lines 265-302: nothing of the index, and no error but
    that of a query. *)
Definition query_event (e : event) : Prop :=
  match e with
  | ChatMessage _ _ | ChatInput _ _ | Invoke _ | Image _ _ => True
  | Error text => exists rest, text = lit "Error processing query: " ++ rest
  | _ => False
  end.

(** The events of [load_csv_documents]: one error per file that failed. *)
Definition file_event (e : event) : Prop :=
  match e with
  | Error text => exists rest, text = lit "Error loading " ++ rest
  | _ => False
  end.

(** One run of the script in a session whose dictionary is [d]. *)
Definition run (d : session_dict) (typed : option str) : (Exception + unit) * world :=
  main typed {| session := with_defaults d; out := [] |}.


End Agent.

(** ** Stand-ins for the libraries, for running the script on examples *)

Module Stub.

(** The frame of a file [a,b,c / 1,x,2.5 / 2,y,nan / 3,z,0.5]. *)
Definition abc_frame : DataFrame :=
  {| columns := [lit "a"; lit "b"; lit "c"];
     rows := [ (VInt 0, [VInt 1; VStr (lit "x"); VFloat (lit "2.5")]);
               (VInt 1, [VInt 2; VStr (lit "y"); VFloat (lit "nan")]);
               (VInt 2, [VInt 3; VStr (lit "z"); VFloat (lit "0.5")]) ] |}.

(** The frame of a file [a,b / 1,2,3 / 4,5,6]: its rows have one field more
    than the header, and [read_csv] takes the first field of each row as
    its index label. *)
Definition ragged_frame : DataFrame :=
  {| columns := [lit "a"; lit "b"];
     rows := [ (VInt 1, [VInt 2; VInt 3]);
               (VInt 4, [VInt 5; VInt 6]) ] |}.

Definition ragged_csv : str := lit "csv_data/ragged.csv".
Definition main_metrics_csv : str := lit "csv_data/main_metrics.csv".

Definition no_such_file (path : str) : Exception :=
  Exc (lit "[Errno 2] No such file or directory: '" ++ path ++ lit "'").

(** An executor that answers with a fixed text, raises, or returns a
    dictionary without ["output"]. *)
Inductive agent :=
| Answers (text : str)
| Raises (e : Exception)
| Malformed.

Definition quota_error : Exception :=
  Exc (lit "Error code: 429 - insufficient_quota").

(** [str.lower] on the Latin and Cyrillic capitals; other code points are
    left as they are. *)
Definition lower_latin_cyrillic (s : str) : str :=
  map (fun c =>
         if ((65 <=? c) && (c <=? 90))%N then (c + 32)%N
         else if ((1040 <=? c) && (c <=? 1071))%N then (c + 32)%N
         else if ((1024 <=? c) && (c <=? 1039))%N then (c + 80)%N
         else c) s.

(** Only [main_metrics.csv] and [ragged.csv] exist; the image exists when
    [image] says so. *)
Definition externals (image : bool) : Externals :=
  {| read_csv := fun path =>
       if str_eqb path main_metrics_csv then inr abc_frame
       else if str_eqb path ragged_csv then inr ragged_frame
       else inl (no_such_file path);
     FAISS := list Document;
     AgentExecutor := agent;
     splitter_split_documents := fun _ _ documents => documents;
     faiss_from_documents := fun documents _ => inr documents;
     faiss_save_local := fun _ _ => inr tt;
     faiss_load_local := fun _ _ => inr [];
     new_agent_executor := fun _ _ _ => inr (Answers (lit "Нет данных, соответствующих запросу."));
     agent_invoke := fun ae _ =>
       match ae with
       | Answers text => (inr {| output := Some text |}, ae)
       | Raises e => (inl e, ae)
       | Malformed => (inr {| output := None |}, ae)
       end;
     os_path_exists := fun path => image && str_eqb path (lit "images/123.png");
     lower := lower_latin_cyrillic |}.

(** The stand-ins with the image in place. *)
Definition with_image : Externals := externals true.

(** A session that is initialised, with the executor [ae] and the history
    [history]. *)
Definition ready (image : bool) (ae : agent) (history : list message)
    : @world (externals image) :=
  {| session := {| vector_store := Some ([] : @FAISS (externals image));
                   agent_executor := Some (ae : @AgentExecutor (externals image));
                   file_names := sorted csv_paths;
                   messages := history;
                   is_initialized := true |};
     out := [] |}.

(** The world of the first run of a new session. *)
Definition fresh (image : bool) : @world (externals image) :=
  {| session := with_defaults empty_session; out := [] |}.

(** A question that names the fifth division, partly in capitals. *)
Definition division_question : str :=
  lit "Какие доходы получит ДИРЕКЦИЯ телеком-комплектации в следующем квартале?".

(** The second of the two graph-request phrases. *)
Definition second_phrase : str :=
  lit "построй график прогнозов по операционным показателям на максимально возможный период и интерпретируй его.".

(** The same request as the table of exemplars spells it, with
    blanks around it. *)
Definition graph_request : str :=
  lit "  Построй график прогнозов по операционным показателям на максимально возможный период и интерпретируй его.
".

End Stub.

(** ** The rest of [agent.py]: the two helpers outside [main] *)

(** [b.startswith(a)] *)
Fixpoint starts_with (a b : str) : bool :=
  match a, b with
  | [], _ => true
  | _ :: _, [] => false
  | x :: a', y :: b' => (x =? y)%N && starts_with a' b'
  end.

(** [a in b] on text *)
Fixpoint occurs (a b : str) : bool :=
  starts_with a b
  || match b with
     | [] => false
     | _ :: b' => occurs a b'
     end.

Section Helpers.

Context `{Ext : Externals}.

Definition divisions : list str :=
  [ lit "Дивизион по розничному бизнесу";
    lit "Дивизион по корпоративному бизнесу";
    lit "Корпоративный университет";
    lit "Дирекция управления проектами (ДУП)";
    lit "Дирекция телеком-комплектации";
    lit "Центральный аппарат Акционерного Общества 'Казахтелеком'";
    lit "Дивизион информационных технологий";
    lit "Сервисная Фабрика";
    lit "Объединение 'Дивизион Сеть'" ].

(** The loop of [extract_division_name] over the divisions still to try. *)
Fixpoint first_division (todo : list str) (query : str) : option str :=
  match todo with
  | [] => None
  | division :: tl =>
    if occurs (lower division) (lower query) then Some division
    else first_division tl query
  end.

Definition extract_division_name (query : str) : option str :=
  first_division divisions query.


(** [chain.invoke] of [table_query_tool], given the formatted prompt: the
    text of the model, or what it raises. *)
Variable chat_model : str -> Exception + str.


(** ** Sessions over the runs of the script *)

(** What the runs of a session keep true of it. *)
Definition session_ok (paths : list str) (s : session_state) : Prop :=
  (is_initialized s = true ->
   vector_store s <> None /\ file_names s = sorted paths)
  /\ (agent_executor s <> None <-> is_initialized s = true).


(** What [handle_query] may change: the executor stays an executor, and the
    history gains the question and at most one answer. *)
Definition query_step (query : str) (w w' : world) (evs : list event) : Prop :=
  out w' = out w ++ evs
  /\ Forall query_event evs
  /\ vector_store (session w') = vector_store (session w)
  /\ file_names (session w') = file_names (session w)
  /\ is_initialized (session w') = is_initialized (session w)
  /\ (agent_executor (session w') = None <-> agent_executor (session w) = None)
  /\ (exists tail,
        messages (session w') = messages (session w) ++ user_message query :: tail
        /\ length tail <= 1)
  /\ (forall p c,
        In (Image p c) evs ->
        p = image_path /\ os_path_exists image_path = true
        /\ In (lower (strip query)) target_queries)
  /\ (forall p d, ~ In (ChatInput p d) evs).

(** An event of the index: embedding, saving or loading. *)
Definition index_event (e : event) : Prop :=
  match e with
  | EmbedAndIndex _ | SaveLocal _ | LoadLocal _ => True
  | _ => False
  end.

(** What lines 265-302 may change and show, for what the user typed. *)
Definition serve_step (typed : option str) (w w' : world) (evs : list event) : Prop :=
  out w' = out w ++ evs
  /\ vector_store (session w') = vector_store (session w)
  /\ file_names (session w') = file_names (session w)
  /\ is_initialized (session w') = is_initialized (session w)
  /\ (agent_executor (session w') = None <-> agent_executor (session w) = None)
  /\ (exists tail,
        messages (session w') = messages (session w) ++ tail
        /\ length tail <= 2
        /\ forall m rest, tail = m :: rest ->
                          exists q, typed = Some q /\ q <> [] /\ m = user_message q)
  /\ (forall p c,
        In (Image p c) evs ->
        p = image_path /\ os_path_exists image_path = true
        /\ exists q, typed = Some q /\ In (lower (strip q)) target_queries)
  /\ (forall p d, In (ChatInput p d) evs -> p = placeholder true /\ d = false)
  /\ (forall e, In e evs -> ~ index_event e).

(** What a whole run may change and show. *)
Definition run_step (paths : list str) (typed : option str) (w w' : world)
    (evs : list event) : Prop :=
  out w' = out w ++ evs
  /\ (session_ok paths (session w) -> session_ok paths (session w'))
  /\ (exists tail,
        messages (session w') = messages (session w) ++ tail
        /\ length tail <= 2
        /\ forall m rest, tail = m :: rest ->
                          exists q, typed = Some q /\ q <> [] /\ m = user_message q)
  /\ (forall p c,
        In (Image p c) evs ->
        p = image_path /\ os_path_exists image_path = true
        /\ exists q, typed = Some q /\ In (lower (strip q)) target_queries)
  /\ (forall p d, In (ChatInput p d) evs -> p = placeholder true /\ d = false).

End Helpers.

(** ** Facts about text *)

Lemma str_eqb_eq (a b : str) : str_eqb a b = true <-> a = b.
Proof.
  revert b; induction a as [|x a IH]; intros [|y b]; simpl;
    try (split; [discriminate | congruence]); try tauto.
  rewrite andb_true_iff, N.eqb_eq, IH. split.
  - intros [-> ->]; reflexivity.
  - intros H; injection H; auto.
Qed.

Lemma str_eqb_refl (a : str) : str_eqb a a = true.
Proof. apply str_eqb_eq; reflexivity. Qed.

Lemma contains_In (xs : list str) (x : str) : contains xs x = true <-> In x xs.
Proof.
  unfold contains. rewrite existsb_exists. split.
  - intros (y & Hy & E). apply str_eqb_eq in E. subst. exact Hy.
  - intros H. exists x. split; [exact H | apply str_eqb_refl].
Qed.

Lemma list_eqb_eq (a b : list str) : list_eqb a b = true <-> a = b.
Proof.
  revert b; induction a as [|x a IH]; intros [|y b]; simpl;
    try (split; [discriminate | congruence]); try tauto.
  rewrite andb_true_iff, str_eqb_eq, IH. split.
  - intros [-> ->]; reflexivity.
  - intros H; injection H; auto.
Qed.

Example lit_cyrillic : lit "отток" = [1086; 1090; 1090; 1086; 1082]%N.
Proof. reflexivity. Qed.

Example strip_ex : strip (lit "  a b
 ") = lit "a b".
Proof. reflexivity. Qed.

Example sorted_ex :
  sorted [lit "b.csv"; lit "a&x.csv"; lit "a.csv"] = [lit "a&x.csv"; lit "a.csv"; lit "b.csv"].
Proof. reflexivity. Qed.

Example str_of_Z_ex : str_of_Z (-12) = lit "-12" /\ str_of_Z 0 = lit "0".
Proof. split; reflexivity. Qed.

Example target_queries_stripped : map strip target_queries = target_queries.
Proof. vm_compute. reflexivity. Qed.

Example graph_request_matches :
  contains target_queries (Stub.lower_latin_cyrillic (strip Stub.graph_request)) = true
  /\ contains target_queries Stub.graph_request = false.
Proof. vm_compute. split; reflexivity. Qed.

(** ** Facts about [load_csv_documents] *)

Section IngestionFacts.

Context `{Ext : Externals}.

Lemma log_nil (w : world) : log [] w = w.
Proof. destruct w; unfold log; simpl. now rewrite app_nil_r. Qed.

Lemma log_log (a b : list event) (w : world) : log b (log a w) = log (a ++ b) w.
Proof. unfold log; simpl. now rewrite app_assoc. Qed.

Lemma append_rows_map (csv_path : str) its documents :
  append_rows csv_path its documents = documents ++ map (make_document csv_path) its.
Proof.
  revert documents; induction its as [|[idx row] tl IH]; intros documents; simpl.
  - now rewrite app_nil_r.
  - rewrite IH, <- app_assoc. reflexivity.
Qed.

Lemma load_csv_loop_run (paths : list str) : forall documents w,
  load_csv_loop paths documents w
  = (inr (documents ++ flat_map file_documents paths),
     log (flat_map file_errors paths) w).
Proof.
  induction paths as [|p tl IH]; intros documents w; simpl.
  - now rewrite app_nil_r, log_nil.
  - unfold bind, try_except, lift, ret, emit, file_documents, file_errors.
    destruct (read_csv p) as [e|df]; simpl; rewrite IH.
    + f_equal. unfold log; simpl. now rewrite <- app_assoc.
    + rewrite append_rows_map, <- app_assoc. reflexivity.
Qed.

Lemma load_csv_documents_run (paths : list str) (w : world) :
  load_csv_documents paths w
  = (inr (flat_map file_documents paths), log (flat_map file_errors paths) w).
Proof. unfold load_csv_documents. now rewrite load_csv_loop_run. Qed.

Lemma file_documents_nth (p : str) (df : DataFrame) (i : nat) idx cells :
  read_csv p = inr df ->
  nth_error (rows df) i = Some (idx, cells) ->
  nth_error (file_documents p) i
  = Some {| page_content := row_content (combine (columns df) cells);
            source := p; row_index := idx |}.
Proof.
  intros Hr Hn. unfold file_documents, iterrows. rewrite Hr, map_map.
  rewrite nth_error_map, Hn. reflexivity.
Qed.

Lemma range_index_nth (df : DataFrame) (i : nat) idx cells :
  has_range_index df ->
  nth_error (rows df) i = Some (idx, cells) ->
  idx = VInt (Z.of_nat i).
Proof.
  unfold has_range_index, range_index. intros Hx Hn.
  assert (Hi : i < length (rows df)) by (apply nth_error_Some; congruence).
  assert (H1 : nth_error (map fst (rows df)) i = Some idx)
    by (rewrite nth_error_map, Hn; reflexivity).
  rewrite Hx, nth_error_map, nth_error_seq in H1.
  destruct (Nat.ltb_spec i (length (rows df))); [|lia].
  simpl in H1. congruence.
Qed.

Lemma row_content_abc (v1 v2 v3 : value) :
  row_content (combine [lit "a"; lit "b"; lit "c"] [v1; v2; v3])
  = (lit "a: " ++ format_value v1) ++ lit ", "
    ++ (lit "b: " ++ format_value v2) ++ lit ", "
    ++ (lit "c: " ++ format_value v3).
Proof. reflexivity. Qed.

(** C1 (as amended): every file that [read_csv] parses adds, in the place
    of its path, exactly one Document per row of its frame, in row order;
    the content joins the ["column: value"] pairs of the row in column
    order with [", "], the metadata carries the path and the index label
    the frame gives the row, and that label is the zero-based position of
    the row when the frame has the default range index.  With columns
    a, b, c the content reads ["a: v1, b: v2, c: v3"]. *)
Theorem load_csv_documents_one_per_row
    (before after : list str) (p : str) (df : DataFrame) (w : world) :
  read_csv p = inr df ->
  exists d_before ds d_after,
    fst (load_csv_documents before w) = inr d_before /\
    fst (load_csv_documents after w) = inr d_after /\
    fst (load_csv_documents (before ++ p :: after) w) = inr (d_before ++ ds ++ d_after) /\
    length ds = length (rows df) /\
    forall i idx cells,
      nth_error (rows df) i = Some (idx, cells) ->
      nth_error ds i
      = Some {| page_content :=
                  join (lit ", ")
                    (map (fun cv => fst cv ++ lit ": " ++ format_value (snd cv))
                       (combine (columns df) cells));
                source := p;
                row_index := idx |}
      /\ (has_range_index df -> idx = VInt (Z.of_nat i))
      /\ (forall v1 v2 v3,
            columns df = [lit "a"; lit "b"; lit "c"] -> cells = [v1; v2; v3] ->
            nth_error (map page_content ds) i
            = Some ((lit "a: " ++ format_value v1) ++ lit ", "
                    ++ (lit "b: " ++ format_value v2) ++ lit ", "
                    ++ (lit "c: " ++ format_value v3))).
Proof.
  intros Hr.
  exists (flat_map file_documents before), (file_documents p),
    (flat_map file_documents after).
  rewrite !load_csv_documents_run; simpl.
  repeat split.
  - rewrite flat_map_app; simpl. reflexivity.
  - unfold file_documents, iterrows. rewrite Hr. now rewrite !length_map.
  - now apply file_documents_nth.
  - intros Hx. eapply range_index_nth; eauto.
  - intros v1 v2 v3 Hc ->. rewrite nth_error_map.
    rewrite (file_documents_nth _ _ _ _ _ Hr H), Hc. reflexivity.
Qed.

End IngestionFacts.

(** The end-to-end scenario of three rows under the columns a, b, c, after
    a file that does not exist. *)
Example three_rows_abc :
  @load_csv_documents (Stub.externals true)
    [lit "csv_data/missing.csv"; Stub.main_metrics_csv] (Stub.fresh true)
  = (inr [ {| page_content := lit "a: 1, b: x, c: 2.5";
              source := Stub.main_metrics_csv; row_index := VInt 0 |};
           {| page_content := lit "a: 2, b: y, c: nan";
              source := Stub.main_metrics_csv; row_index := VInt 1 |};
           {| page_content := lit "a: 3, b: z, c: 0.5";
              source := Stub.main_metrics_csv; row_index := VInt 2 |} ],
     {| session := with_defaults empty_session;
        out := [Error (lit "Error loading csv_data/missing.csv: [Errno 2] No such file or directory: 'csv_data/missing.csv'")] |}).
Proof. vm_compute. reflexivity. Qed.

Lemma load_csv_documents_one_per_row_witness :
  @read_csv (Stub.externals true) Stub.main_metrics_csv = inr Stub.abc_frame
  /\ exists d_before ds d_after,
       fst (@load_csv_documents (Stub.externals true)
              [lit "csv_data/missing.csv"] (Stub.fresh true)) = inr d_before
       /\ fst (@load_csv_documents (Stub.externals true) [] (Stub.fresh true)) = inr d_after
       /\ fst (@load_csv_documents (Stub.externals true)
                 ([lit "csv_data/missing.csv"] ++ Stub.main_metrics_csv :: [])
                 (Stub.fresh true))
          = inr (d_before ++ ds ++ d_after)
       /\ length ds = 3.
Proof.
  split; [reflexivity|].
  destruct (@load_csv_documents_one_per_row (Stub.externals true)
              [lit "csv_data/missing.csv"] [] Stub.main_metrics_csv Stub.abc_frame
              (Stub.fresh true) eq_refl)
    as (d_before & ds & d_after & H1 & H2 & H3 & H4 & _).
  exists d_before, ds, d_after. repeat split; assumption.
Defined.

(** C1 as the specification words it fails on a frame whose index is not the
    default one: the rows of [a,b / 1,2,3 / 4,5,6] are labelled 1 and 4, and
    the first Document carries 1, not the position 0. *)
Lemma row_index_is_the_label_not_the_position :
  exists d rest,
    @read_csv (Stub.externals true) Stub.ragged_csv = inr Stub.ragged_frame
    /\ fst (@load_csv_documents (Stub.externals true) [Stub.ragged_csv] (Stub.fresh true))
       = inr (d :: rest)
    /\ page_content d = lit "a: 2, b: 3"
    /\ row_index d = VInt 1
    /\ row_index d <> VInt 0.
Proof.
  eexists; eexists. split; [reflexivity|]. split; [vm_compute; reflexivity|].
  simpl. split; [vm_compute; reflexivity|]. split; [reflexivity|discriminate].
Qed.

(** ** Facts about the query handler *)

Section QueryFacts.

Context `{Ext : Externals}.

Lemma for_each_emit (f : message -> event) (ms : list message) (w : world) :
  for_each ms (fun m => emit (f m)) w = (inr tt, log (map f ms) w).
Proof.
  revert w; induction ms as [|m tl IH]; intros w; simpl.
  - unfold ret. now rewrite log_nil.
  - unfold bind, emit at 1. rewrite IH. unfold log; simpl.
    now rewrite <- app_assoc.
Qed.

Lemma serve_ready (query : str) (c : N) (q : str) (w : world) :
  is_initialized (session w) = true ->
  query = c :: q ->
  serve (Some query) w
  = handle_query query
      (log (map (fun m => ChatMessage (role m) (content m)) (messages (session w))
            ++ [ChatInput (placeholder true) false]) w).
Proof.
  intros Hi ->. unfold serve, bind, get. rewrite for_each_emit. simpl.
  rewrite Hi. unfold emit; simpl. unfold log; simpl.
  now rewrite <- app_assoc.
Qed.

Lemma main_on_ready (paths : list str) (query : str) (c : N) (q : str) (w : world) :
  is_initialized (session w) = true ->
  query = c :: q ->
  main_on paths (Some query) w
  = try_except (answer_query query)
      (fun e => emit (Error (lit "Error processing query: " ++ exc_text e)))
      (at_try query w).
Proof.
  intros Hi Hq. unfold main_on, bind, get. simpl. rewrite Hi. simpl.
  assert (Hi' : is_initialized (session (log [Title (lit "epsilon3.ai Agent")] w)) = true)
    by exact Hi.
  change {| session := session w; out := out w ++ [Title (lit "epsilon3.ai Agent")] |}
    with (log [Title (lit "epsilon3.ai Agent")] w).
  rewrite serve_ready with (c := c) (q := q) by assumption.
  unfold handle_query, bind, modify, emit, at_try, page_head, log; simpl.
  rewrite <- !app_assoc. reflexivity.
Qed.

(** A failing body leaves the history as it found it. *)
Lemma answer_query_raise_keeps_messages (query : str) (w w' : world) (e : Exception) :
  answer_query query w = (inl e, w') ->
  messages (session w') = messages (session w).
Proof.
  unfold answer_query, invoke_agent, bind, get, raise, ret, lift, emit, modify.
  destruct (agent_executor (session w)) as [ae|]; simpl.
  - destruct (agent_invoke ae query) as [[e0|resp] ae']; simpl.
    + intros H; inversion H; subst; reflexivity.
    + destruct (output resp) as [a|]; simpl.
      * destruct (contains target_queries (lower (strip query))); simpl;
          [destruct (os_path_exists image_path); simpl|]; discriminate.
      * intros H; inversion H; subst; reflexivity.
  - intros H; inversion H; subst; reflexivity.
Qed.

(** Whatever the body does, the history only grows. *)
Lemma answer_query_extends_messages (query : str) (w w' : world) r :
  answer_query query w = (r, w') ->
  exists tail, messages (session w') = messages (session w) ++ tail.
Proof.
  destruct r as [e|[]].
  - intros H. exists []. rewrite app_nil_r.
    eapply answer_query_raise_keeps_messages; eauto.
  - unfold answer_query, invoke_agent, bind, get, raise, ret, lift, emit, modify.
    destruct (agent_executor (session w)) as [ae|]; simpl; [|discriminate].
    destruct (agent_invoke ae query) as [[e0|resp] ae']; simpl; [discriminate|].
    destruct (output resp) as [a|]; simpl; [|discriminate].
    destruct (contains target_queries (lower (strip query))); simpl;
      [destruct (os_path_exists image_path); simpl|];
      intros H; inversion H; subst; simpl; eexists; reflexivity.
Qed.

(** The body on a graph request that the agent answers. *)
Lemma answer_query_graph (query : str) (w : world) ae ae' resp a :
  agent_executor (session w) = Some ae ->
  agent_invoke ae query = (inr resp, ae') ->
  output resp = Some a ->
  contains target_queries (lower (strip query)) = true ->
  answer_query query w
  = (inr tt,
     {| session := append_message (assistant_message graph_reply)
                     (set_agent_executor (Some ae') (session w));
        out := out w ++ Invoke query :: graph_shown |}).
Proof.
  intros Ha Hi Ho Hc.
  unfold answer_query, invoke_agent, bind, get, raise, ret, lift, emit, modify.
  rewrite Ha; simpl. rewrite Hi; simpl. rewrite Ho, Hc; simpl.
  unfold graph_shown, graph_reply.
  destruct (os_path_exists image_path); simpl; rewrite <- !app_assoc; reflexivity.
Qed.

Lemma targets_are_stripped (t : str) : In t target_queries -> strip t = t.
Proof.
  intros H. rewrite <- target_queries_stripped in H at 1.
  unfold target_queries in H; simpl in H.
  destruct H as [<-|[<-|[]]]; vm_compute; reflexivity.
Qed.

Lemma targets_not_empty (t : str) : In t target_queries -> t <> [].
Proof.
  unfold target_queries; simpl. intros [<-|[<-|[]]]; vm_compute; discriminate.
Qed.

(** C7: on an initialised session a run with a query never raises, and the
    history it found is kept, followed by the question.  Whatever raises in
    the body of the [try] is shown as one inline error with its text, and
    the history then is the old one with the question; an agent call that
    raises and a response without ["output"] are such failures. *)
Theorem query_failure_is_caught (paths : list str) (query : str) (w : world) :
  is_initialized (session w) = true ->
  query <> [] ->
  (exists w' tail,
      main_on paths (Some query) w = (inr tt, w')
      /\ messages (session w') = messages (session w) ++ user_message query :: tail)
  /\ (forall e w2,
        answer_query query (at_try query w) = (inl e, w2) ->
        main_on paths (Some query) w
        = (inr tt, log [Error (lit "Error processing query: " ++ exc_text e)] w2)
        /\ messages (session w2) = messages (session w) ++ [user_message query])
  /\ (forall ae ae' e,
        agent_executor (session w) = Some ae ->
        agent_invoke ae query = (inl e, ae') ->
        exists w2, answer_query query (at_try query w) = (inl e, w2))
  /\ (forall ae ae' resp,
        agent_executor (session w) = Some ae ->
        agent_invoke ae query = (inr resp, ae') ->
        output resp = None ->
        exists w2, answer_query query (at_try query w) = (inl (Exc (lit "'output'")), w2)).
Proof.
  intros Hi Hq. destruct query as [|c q]; [congruence|].
  rewrite main_on_ready with (c := c) (q := q) by (assumption || reflexivity).
  repeat split.
  - unfold try_except.
    destruct (answer_query (c :: q) (at_try (c :: q) w)) as [[e|[]] w2] eqn:Hb.
    + eexists; eexists. split; [reflexivity|].
      unfold emit; simpl.
      rewrite (answer_query_raise_keeps_messages _ _ _ _ Hb). simpl. reflexivity.
    + destruct (answer_query_extends_messages _ _ _ _ Hb) as [tail Ht].
      exists w2, tail. split; [reflexivity|].
      rewrite Ht. simpl. rewrite <- app_assoc. reflexivity.
  - unfold try_except. rewrite H. reflexivity.
  - rewrite (answer_query_raise_keeps_messages _ _ _ _ H). reflexivity.
  - intros ae ae' e Ha Hv.
    unfold answer_query, invoke_agent, bind, get, raise, ret, lift, emit, modify.
    simpl. rewrite Ha; simpl. rewrite Hv; simpl. eexists; reflexivity.
  - intros ae ae' resp Ha Hv Ho.
    unfold answer_query, invoke_agent, bind, get, raise, ret, lift, emit, modify.
    simpl. rewrite Ha; simpl. rewrite Hv; simpl. rewrite Ho. eexists; reflexivity.
Qed.

(** C8 (as amended): for a query that is one of the two graph-request
    phrases, when the call of the agent on it returns an answer, the
    recorded answer is the fixed text and the image is shown if the image
    file exists, and the recorded answer is the apology, with no image, if
    it does not. *)
Theorem graph_request_answer (paths : list str) (query : str) (w : world)
    (ae ae' : AgentExecutor) (resp : response) (a : str) :
  is_initialized (session w) = true ->
  (forall t, In t target_queries -> lower t = t) ->
  In query target_queries ->
  agent_executor (session w) = Some ae ->
  agent_invoke ae query = (inr resp, ae') ->
  output resp = Some a ->
  exists w',
    main_on paths (Some query) w = (inr tt, w')
    /\ messages (session w')
       = messages (session w)
         ++ [user_message query;
             assistant_message
               (if os_path_exists image_path then graph_answer else graph_apology)]
    /\ out w'
       = out w ++ page_head (session w)
         ++ [ChatMessage (lit "user") query; Invoke query]
         ++ (if os_path_exists image_path
             then [Image image_path image_caption;
                   ChatMessage (lit "assistant") graph_answer]
             else [ChatMessage (lit "assistant") graph_apology]).
Proof.
  intros Hi Hl Hq Ha Hv Ho.
  assert (Hc : contains target_queries (lower (strip query)) = true).
  { apply contains_In. rewrite (targets_are_stripped _ Hq), (Hl _ Hq). exact Hq. }
  pose proof (targets_not_empty _ Hq) as Hne.
  destruct query as [|c q]; [congruence|].
  rewrite main_on_ready with (c := c) (q := q) by (assumption || reflexivity). unfold try_except.
  rewrite (answer_query_graph (c :: q) (at_try (c :: q) w) ae ae' resp a);
    try assumption.
  eexists. split; [reflexivity|]. simpl. split.
  - rewrite <- app_assoc. reflexivity.
  - unfold graph_shown, graph_reply, page_head.
    destruct (os_path_exists image_path); simpl;
      repeat (rewrite <- app_assoc; simpl); reflexivity.
Qed.

(** C10: for a query whose stripped, lower-cased form is one of the two
    graph-request phrases, two runs that differ only in the executor, and so
    in the text the agent returns, call the agent and then record the same
    answer and show the same things; the answer is the fixed text if the
    image file exists and the apology if not. *)
Theorem graph_answer_ignores_the_agent (paths : list str) (query : str) (w : world)
    (ae1 ae2 ae1' ae2' : AgentExecutor) (r1 r2 : response) (a1 a2 : str) :
  is_initialized (session w) = true ->
  query <> [] ->
  In (lower (strip query)) target_queries ->
  agent_invoke ae1 query = (inr r1, ae1') -> output r1 = Some a1 ->
  agent_invoke ae2 query = (inr r2, ae2') -> output r2 = Some a2 ->
  exists w1 w2,
    main_on paths (Some query) (with_agent ae1 w) = (inr tt, w1)
    /\ main_on paths (Some query) (with_agent ae2 w) = (inr tt, w2)
    /\ messages (session w1)
       = messages (session w)
         ++ [user_message query;
             assistant_message
               (if os_path_exists image_path then graph_answer else graph_apology)]
    /\ messages (session w2) = messages (session w1)
    /\ out w2 = out w1
    /\ In (Invoke query) (out w1).
Proof.
  intros Hi Hq Hc H1 Ho1 H2 Ho2. apply contains_In in Hc.
  destruct query as [|c q]; [congruence|].
  rewrite !main_on_ready with (c := c) (q := q) by (reflexivity || exact Hi).
  unfold try_except.
  rewrite (answer_query_graph (c :: q) (at_try (c :: q) (with_agent ae1 w))
             ae1 ae1' r1 a1); try assumption; try reflexivity.
  rewrite (answer_query_graph (c :: q) (at_try (c :: q) (with_agent ae2 w))
             ae2 ae2' r2 a2); try assumption; try reflexivity.
  eexists; eexists. split; [reflexivity|]. split; [reflexivity|]. simpl.
  repeat split.
  - rewrite <- app_assoc. reflexivity.
  - rewrite !in_app_iff. right. left. reflexivity.
Qed.

End QueryFacts.

(** ** Facts about the start-up block *)

Section StartFacts.

Context `{Ext : Externals}.

Lemma file_errors_are_file_events (paths : list str) :
  Forall file_event (flat_map file_errors paths).
Proof.
  induction paths as [|p tl IH]; simpl; [constructor|].
  apply Forall_app; split; [|exact IH].
  unfold file_errors. destruct (read_csv p) as [e|df]; constructor; [|constructor].
  simpl. exists (p ++ lit ": " ++ exc_text e). reflexivity.
Qed.

Lemma file_event_not_no_valid : ~ file_event (Error no_valid_csv).
Proof. intros [rest H]. vm_compute in H. discriminate. Qed.

Lemma query_event_not_no_valid : ~ query_event (Error no_valid_csv).
Proof. intros [rest H]. vm_compute in H. discriminate. Qed.

Lemma query_error_event (text : str) :
  query_event (Error (lit "Error processing query: " ++ text)).
Proof. exists text. reflexivity. Qed.

Ltac query_events :=
  repeat (apply Forall_cons; [first [exact I | apply query_error_event]|]);
  apply Forall_nil.

Ltac ran_quietly :=
  eexists; eexists; split; [reflexivity|]; simpl;
  split; [rewrite <- ?app_assoc; reflexivity|]; query_events.

Opaque lit.

Lemma handle_query_events (query : str) (w : world) :
  exists w' evs,
    handle_query query w = (inr tt, w')
    /\ out w' = out w ++ evs
    /\ Forall query_event evs.
Proof.
  unfold handle_query, answer_query, invoke_agent, try_except, bind, get, raise,
    ret, lift, emit, modify.
  simpl.
  destruct (agent_executor (session w)) as [ae|]; simpl; [|ran_quietly].
  destruct (agent_invoke ae query) as [[e0|resp] ae']; simpl; [ran_quietly|].
  destruct (output resp) as [a|]; simpl; [|ran_quietly].
  destruct (contains target_queries (lower (strip query))); simpl;
    [destruct (os_path_exists image_path); simpl|]; ran_quietly.
Qed.

Lemma serve_events (typed : option str) (w : world) :
  exists w' evs,
    serve typed w = (inr tt, w')
    /\ out w' = out w ++ evs
    /\ Forall query_event evs.
Proof.
  unfold serve, bind, get. rewrite for_each_emit. simpl.
  set (shown := map (fun m => ChatMessage (role m) (content m)) (messages (session w))).
  assert (Hs : Forall query_event shown).
  { unfold shown. apply Forall_forall. intros e He.
    apply in_map_iff in He. destruct He as (m & <- & _). exact I. }
  assert (Hquiet : forall b : bool,
            exists w' evs,
              @ret _ unit tt
                {| session := session w;
                   out := (out w ++ shown) ++ [ChatInput (placeholder b) (negb b)] |}
              = (inr tt, w')
              /\ out w' = out w ++ evs /\ Forall query_event evs).
  { intros b. eexists; eexists. split; [reflexivity|]. simpl.
    split; [rewrite <- app_assoc; reflexivity|].
    apply Forall_app; split; [exact Hs|]. query_events. }
  destruct (is_initialized (session w)); [|apply Hquiet].
  destruct typed as [[|c q]|]; [apply Hquiet| |apply Hquiet].
  match goal with
  | |- context [handle_query _ ?w1] =>
    destruct (handle_query_events (c :: q) w1) as (w' & evs & Hrun & Hout & Hev)
  end.
  exists w', ((shown ++ [ChatInput (placeholder true) (negb true)]) ++ evs).
  split; [exact Hrun|]. split.
  - rewrite Hout. simpl. now rewrite !app_assoc.
  - apply Forall_app; split; [|exact Hev].
    apply Forall_app; split; [exact Hs|]. query_events.
Qed.

Lemma file_event_in (l : list event) (e : event) :
  Forall file_event l -> In e l -> file_event e.
Proof. intros F H. rewrite Forall_forall in F. auto. Qed.

Lemma query_event_in (l : list event) (e : event) :
  Forall query_event l -> In e l -> query_event e.
Proof. intros F H. rewrite Forall_forall in F. auto. Qed.

Ltac no_such_event :=
  match goal with
  | F : Forall file_event ?l, H : In ?e ?l |- _ =>
    apply (file_event_in _ _ F) in H;
    first [exact (False_ind _ (file_event_not_no_valid H)) | exact (False_ind _ H)]
  | F : Forall query_event ?l, H : In ?e ?l |- _ =>
    apply (query_event_in _ _ F) in H;
    first [exact (False_ind _ (query_event_not_no_valid H)) | exact (False_ind _ H)]
  end.

Ltac sort_events :=
  repeat split; intros;
  rewrite ?in_app_iff in *; simpl in *;
  intuition (try discriminate; try congruence; subst; auto; try no_such_event).

Ltac stopped :=
  eexists; eexists; eexists; split; [reflexivity|]; simpl;
  split; [rewrite <- ?app_assoc; reflexivity|]; sort_events.

Lemma main_on_start (paths : list str) (typed : option str) (w : world) :
  is_initialized (session w) = false ->
  exists r w' evs,
    main_on paths typed w = (r, w')
    /\ out w' = out w ++ evs
    /\ (In (Error no_valid_csv) evs
        <-> needs_rebuild (sorted paths) (session w) = true
            /\ flat_map file_documents paths = [])
    /\ (forall d, In (EmbedAndIndex d) evs
        <-> needs_rebuild (sorted paths) (session w) = true
            /\ flat_map file_documents paths <> []
            /\ d = split_documents (flat_map file_documents paths))
    /\ (forall f, In (LoadLocal f) evs
        <-> needs_rebuild (sorted paths) (session w) = false /\ f = faiss_index)
    /\ (needs_rebuild (sorted paths) (session w) = true ->
        flat_map file_documents paths = [] ->
        r = inr tt
        /\ vector_store (session w') = vector_store (session w)
        /\ is_initialized (session w') = false).
Proof.
  intros Hi.
  pose proof (file_errors_are_file_events paths) as Hfe.
  unfold main_on, bind, get. simpl. rewrite Hi. simpl.
  unfold initialize, bind, get. simpl.
  destruct (needs_rebuild (sorted paths) (session w)) eqn:Hn.
  - unfold modify. simpl. rewrite load_csv_documents_run. simpl.
    destruct (flat_map file_documents paths) as [|d0 ds] eqn:Hd.
    + simpl. stopped.
    + unfold create_vector_store, create_agent, bind, emit, lift, ret. simpl.
      destruct (faiss_from_documents _ _) as [e|vs]; simpl; [stopped|].
      destruct (faiss_save_local _ _) as [e|[]]; simpl; [stopped|].
      destruct (new_agent_executor _ _ _) as [e|ae]; simpl; [stopped|].
      match goal with
      | |- context [serve typed ?w1] =>
        destruct (serve_events typed w1) as (w' & evs & Hrun & Hout & Hev)
      end.
      rewrite Hrun. eexists; eexists; eexists. split; [reflexivity|].
      rewrite Hout. simpl. split; [rewrite <- ?app_assoc; reflexivity|].
      sort_events.
  - unfold load_existing_vector_store, create_agent, bind, emit, lift, ret, modify.
    simpl.
    destruct (faiss_load_local _ _) as [e|vs]; simpl; [stopped|].
    destruct (agent_executor (session w)) as [ae0|]; simpl.
    + match goal with
      | |- context [serve typed ?w1] =>
        destruct (serve_events typed w1) as (w' & evs & Hrun & Hout & Hev)
      end.
      rewrite Hrun. eexists; eexists; eexists. split; [reflexivity|].
      rewrite Hout. simpl. split; [rewrite <- ?app_assoc; reflexivity|].
      sort_events.
    + destruct (new_agent_executor _ _ _) as [e|ae]; simpl; [stopped|].
      match goal with
      | |- context [serve typed ?w1] =>
        destruct (serve_events typed w1) as (w' & evs & Hrun & Hout & Hev)
      end.
      rewrite Hrun. eexists; eexists; eexists. split; [reflexivity|].
      rewrite Hout. simpl. split; [rewrite <- ?app_assoc; reflexivity|].
      sort_events.
Qed.

(** C4: a path that [read_csv] fails on adds no Document and shows one
    error that names it, every other path adds its Documents, and
    [load_csv_documents] itself never raises; a run that has to build the
    index reports that no valid data was loaded, and returns without
    building one, exactly when no Document at all resulted, and otherwise
    goes on to embed and index the split Documents. *)
Theorem ingestion_skips_failed_files (paths : list str) (typed : option str) (w : world) :
  is_initialized (session w) = false ->
  needs_rebuild (sorted paths) (session w) = true ->
  load_csv_documents paths w
  = (inr (flat_map file_documents paths), log (flat_map file_errors paths) w)
  /\ (forall p e,
        read_csv p = inl e ->
        file_documents p = []
        /\ file_errors p
           = [Error (lit "Error loading " ++ p ++ lit ": " ++ exc_text e)])
  /\ (forall p df,
        read_csv p = inr df ->
        file_errors p = [] /\ length (file_documents p) = length (rows df))
  /\ exists r w' evs,
       main_on paths typed w = (r, w')
       /\ out w' = out w ++ evs
       /\ (In (Error no_valid_csv) evs <-> flat_map file_documents paths = [])
       /\ ((exists d, In (EmbedAndIndex d) evs) <-> flat_map file_documents paths <> [])
       /\ (flat_map file_documents paths = [] ->
           r = inr tt
           /\ vector_store (session w') = vector_store (session w)
           /\ is_initialized (session w') = false).
Proof.
  intros Hi Hn. split; [apply load_csv_documents_run|].
  split; [|split].
  - intros p e Hr. unfold file_documents, file_errors. rewrite Hr. split; reflexivity.
  - intros p df Hr. unfold file_documents, file_errors, iterrows. rewrite Hr.
    split; [reflexivity|]. now rewrite !length_map.
  - destruct (main_on_start paths typed w Hi)
      as (r & w' & evs & Hrun & Hout & Herr & Hidx & _ & Hstop).
    exists r, w', evs. split; [exact Hrun|]. split; [exact Hout|].
    split; [|split].
    + rewrite Herr. tauto.
    + split.
      * intros [d Hd]. apply Hidx in Hd. tauto.
      * intros Hne. exists (split_documents (flat_map file_documents paths)).
        apply Hidx. tauto.
    + intros Hd. apply Hstop; assumption.
Qed.

Lemma needs_rebuild_false (names : list str) (s : session_state) :
  needs_rebuild names s = false
  <-> file_names s = names /\ vector_store s <> None.
Proof.
  unfold needs_rebuild. rewrite orb_false_iff, negb_false_iff, list_eqb_eq.
  destruct (vector_store s); split; intros [H1 H2];
    (split; [congruence|]); congruence.
Qed.

(** C5 (as amended): a session that has just begun, as after a restart of
    the process, holds no vector store and so always rebuilds.  In a run
    that is not yet initialised the index is loaded from [faiss_index]
    exactly when the session holds a vector store and its recorded file
    names are the sorted paths, and then nothing is embedded; otherwise
    nothing is loaded, and the Documents, if any, are embedded and indexed
    anew. *)
Theorem index_reuse_is_per_session (paths : list str) (typed : option str) (w : world) :
  is_initialized (session w) = false ->
  needs_rebuild (sorted paths) (with_defaults empty_session) = true
  /\ (needs_rebuild (sorted paths) (session w) = false
      <-> file_names (session w) = sorted paths /\ vector_store (session w) <> None)
  /\ exists r w' evs,
       main_on paths typed w = (r, w')
       /\ out w' = out w ++ evs
       /\ (In (LoadLocal faiss_index) evs
           <-> needs_rebuild (sorted paths) (session w) = false)
       /\ (needs_rebuild (sorted paths) (session w) = false ->
           forall d, ~ In (EmbedAndIndex d) evs)
       /\ (needs_rebuild (sorted paths) (session w) = true ->
           flat_map file_documents paths <> [] ->
           In (EmbedAndIndex (split_documents (flat_map file_documents paths))) evs).
Proof.
  intros Hi. split; [|split].
  - unfold needs_rebuild. simpl. apply orb_true_r.
  - apply needs_rebuild_false.
  - destruct (main_on_start paths typed w Hi)
      as (r & w' & evs & Hrun & Hout & _ & Hidx & Hload & _).
    exists r, w', evs. split; [exact Hrun|]. split; [exact Hout|].
    split; [|split].
    + rewrite Hload. tauto.
    + intros Hn d Hd. apply Hidx in Hd. destruct Hd as [Ht _]. congruence.
    + intros Hn Hne. apply Hidx. tauto.
Qed.

Transparent lit.

End StartFacts.

(** ** The script on the stand-ins *)

#[local] Existing Instance Stub.with_image.

Lemma stub_lower_keeps_targets (t : str) :
  In t target_queries -> Stub.lower_latin_cyrillic t = t.
Proof.
  unfold target_queries; simpl. intros [<-|[<-|[]]]; vm_compute; reflexivity.
Qed.

Lemma ingestion_skips_failed_files_witness :
  is_initialized (session (Stub.fresh true)) = false
  /\ needs_rebuild (sorted csv_paths) (session (Stub.fresh true)) = true
  /\ load_csv_documents csv_paths (Stub.fresh true)
     = (inr (flat_map file_documents csv_paths),
        log (flat_map file_errors csv_paths) (Stub.fresh true)).
Proof.
  split; [reflexivity|]. split; [reflexivity|].
  exact (proj1 (ingestion_skips_failed_files csv_paths None (Stub.fresh true)
                  eq_refl eq_refl)).
Defined.

(** The first run of a session on the stand-ins: two of the three files are
    missing, the third gives three Documents, and the index is built. *)
Example first_run :
  run empty_session None
  = (inr tt,
     {| session :=
          {| vector_store := Some (flat_map file_documents csv_paths);
             agent_executor :=
               Some (Stub.Answers (lit "Нет данных, соответствующих запросу."));
             file_names := sorted csv_paths;
             messages := [];
             is_initialized := true |};
        out :=
          [ Title (lit "epsilon3.ai Agent");
            Error (lit "Error loading csv_data/var1_correlations.csv: [Errno 2] No such file or directory: 'csv_data/var1_correlations.csv'");
            Error (lit "Error loading csv_data/var2_data_with_forecast_without_in&outcome.csv: [Errno 2] No such file or directory: 'csv_data/var2_data_with_forecast_without_in&outcome.csv'");
            EmbedAndIndex (flat_map file_documents csv_paths);
            SaveLocal faiss_index;
            Success (lit "CSV files processed and vector store created.");
            ChatInput (lit "Enter your question about the CSV data...") false ] |}).
Proof. vm_compute. reflexivity. Qed.

Lemma index_reuse_is_per_session_witness :
  is_initialized (session (Stub.fresh true)) = false
  /\ needs_rebuild (sorted csv_paths) (with_defaults empty_session) = true.
Proof.
  split; [reflexivity|].
  exact (proj1 (index_reuse_is_per_session csv_paths None (Stub.fresh true) eq_refl)).
Defined.

(** C5 as the specification words it fails after a restart: the first run
    saves the index; the process restarts, so the next run starts from the
    dictionary of a new session, over the same paths; it embeds and saves
    again and never loads what the first run saved. *)
Lemma restart_rebuilds_the_index :
  let first := run empty_session None in
  let second := run empty_session None in
  fst first = inr tt
  /\ In (SaveLocal faiss_index) (out (snd first))
  /\ In (EmbedAndIndex (flat_map file_documents csv_paths)) (out (snd second))
  /\ ~ In (LoadLocal faiss_index) (out (snd second)).
Proof.
  cbv zeta. rewrite first_run. simpl.
  split; [reflexivity|]. split; [tauto|]. split; [tauto|].
  intros H. repeat (destruct H as [H|H]; [discriminate H|]). exact H.
Qed.

(** The one way into the other branch: line 254 has stored the vector store
    and line 255, [create_agent], has raised, so the session is left with a
    store and the file names but not initialised; the next run of that
    session loads the index. *)
Example rerun_loads_the_index :
  main_on csv_paths None
    {| session :=
         {| vector_store := Some (flat_map file_documents csv_paths);
            agent_executor := None;
            file_names := sorted csv_paths;
            messages := [];
            is_initialized := false |};
       out := [] |}
  = (inr tt,
     {| session :=
          {| vector_store := Some [];
             agent_executor :=
               Some (Stub.Answers (lit "Нет данных, соответствующих запросу."));
             file_names := sorted csv_paths;
             messages := [];
             is_initialized := true |};
        out :=
          [ Title (lit "epsilon3.ai Agent");
            LoadLocal faiss_index;
            Info (lit "Using existing vector store.");
            ChatInput (lit "Enter your question about the CSV data...") false ] |}).
Proof. vm_compute. reflexivity. Qed.

Lemma query_failure_is_caught_witness :
  is_initialized (session (Stub.ready true (Stub.Raises Stub.quota_error) [])) = true
  /\ lit "arpu?" <> []
  /\ exists w' tail,
       main_on csv_paths (Some (lit "arpu?"))
         (Stub.ready true (Stub.Raises Stub.quota_error) [])
       = (inr tt, w')
       /\ messages (session w') = [] ++ user_message (lit "arpu?") :: tail.
Proof.
  split; [reflexivity|]. split; [vm_compute; discriminate|].
  refine (proj1 (query_failure_is_caught csv_paths (lit "arpu?")
                   (Stub.ready true (Stub.Raises Stub.quota_error) []) eq_refl _)).
  vm_compute; discriminate.
Defined.

(** A quota error of the agent, as the user sees it. *)
Example quota_error_run :
  main_on csv_paths (Some (lit "arpu?"))
    (Stub.ready true (Stub.Raises Stub.quota_error) [user_message (lit "hi")])
  = (inr tt,
     {| session :=
          {| vector_store := Some [];
             agent_executor := Some (Stub.Raises Stub.quota_error);
             file_names := sorted csv_paths;
             messages := [user_message (lit "hi"); user_message (lit "arpu?")];
             is_initialized := true |};
        out :=
          [ Title (lit "epsilon3.ai Agent");
            ChatMessage (lit "user") (lit "hi");
            ChatInput (lit "Enter your question about the CSV data...") false;
            ChatMessage (lit "user") (lit "arpu?");
            Invoke (lit "arpu?");
            Error (lit "Error processing query: Error code: 429 - insufficient_quota") ] |}).
Proof. vm_compute. reflexivity. Qed.

Lemma graph_request_answer_witness :
  is_initialized (session (Stub.ready true (Stub.Answers (lit "ok")) [])) = true
  /\ In Stub.second_phrase target_queries
  /\ agent_invoke (Stub.Answers (lit "ok")) Stub.second_phrase
     = (inr {| output := Some (lit "ok") |}, Stub.Answers (lit "ok"))
  /\ exists w',
       main_on csv_paths (Some Stub.second_phrase)
         (Stub.ready true (Stub.Answers (lit "ok")) [])
       = (inr tt, w')
       /\ messages (session w')
          = [] ++ [user_message Stub.second_phrase;
                   assistant_message
                     (if os_path_exists image_path then graph_answer else graph_apology)].
Proof.
  assert (Hin : In Stub.second_phrase target_queries)
    by (unfold target_queries, Stub.second_phrase, In; right; left; reflexivity).
  split; [reflexivity|]. split; [exact Hin|]. split; [reflexivity|].
  destruct (graph_request_answer csv_paths Stub.second_phrase
              (Stub.ready true (Stub.Answers (lit "ok")) [])
              (Stub.Answers (lit "ok")) (Stub.Answers (lit "ok"))
              {| output := Some (lit "ok") |} (lit "ok")
              eq_refl stub_lower_keeps_targets Hin eq_refl eq_refl eq_refl)
    as (w' & Hrun & Hm & _).
  exists w'. split; assumption.
Defined.

(** C8 as the specification words it fails when the call of the agent
    raises: the query is a graph-request phrase and the image exists, yet no
    image is shown and no answer is recorded, only the error. *)
Lemma graph_request_needs_the_agent :
  let w := Stub.ready true (Stub.Raises Stub.quota_error) [] in
  let after := snd (main_on csv_paths (Some Stub.second_phrase) w) in
  In Stub.second_phrase target_queries
  /\ os_path_exists image_path = true
  /\ messages (session after) = [user_message Stub.second_phrase]
  /\ ~ In (Image image_path image_caption) (out after)
  /\ out after
     = [ Title (lit "epsilon3.ai Agent");
         ChatInput (lit "Enter your question about the CSV data...") false;
         ChatMessage (lit "user") Stub.second_phrase;
         Invoke Stub.second_phrase;
         Error (lit "Error processing query: Error code: 429 - insufficient_quota") ].
Proof.
  cbv zeta.
  split; [unfold target_queries, Stub.second_phrase, In; right; left; reflexivity|].
  split; [reflexivity|].
  assert (Hout : out (snd (main_on csv_paths (Some Stub.second_phrase)
                              (Stub.ready true (Stub.Raises Stub.quota_error) [])))
                 = [ Title (lit "epsilon3.ai Agent");
                     ChatInput (lit "Enter your question about the CSV data...") false;
                     ChatMessage (lit "user") Stub.second_phrase;
                     Invoke Stub.second_phrase;
                     Error (lit "Error processing query: Error code: 429 - insufficient_quota") ])
    by (vm_compute; reflexivity).
  split; [vm_compute; reflexivity|]. split; [|exact Hout].
  rewrite Hout. intros H.
  repeat (destruct H as [H|H]; [discriminate H|]). exact H.
Qed.

Lemma graph_answer_ignores_the_agent_witness :
  Stub.graph_request <> Stub.second_phrase
  /\ contains target_queries Stub.graph_request = false
  /\ In (lower (strip Stub.graph_request)) target_queries
  /\ exists w1 w2,
       main_on csv_paths (Some Stub.graph_request)
         (with_agent (Stub.Answers (lit "yes")) (Stub.ready true Stub.Malformed []))
       = (inr tt, w1)
       /\ main_on csv_paths (Some Stub.graph_request)
            (with_agent (Stub.Answers (lit "no")) (Stub.ready true Stub.Malformed []))
          = (inr tt, w2)
       /\ messages (session w2) = messages (session w1)
       /\ out w2 = out w1.
Proof.
  split; [vm_compute; discriminate|]. split; [vm_compute; reflexivity|].
  assert (Hc : In (lower (strip Stub.graph_request)) target_queries)
    by (apply contains_In; vm_compute; reflexivity).
  split; [exact Hc|].
  destruct (graph_answer_ignores_the_agent csv_paths Stub.graph_request
              (Stub.ready true Stub.Malformed [])
              (Stub.Answers (lit "yes")) (Stub.Answers (lit "no"))
              (Stub.Answers (lit "yes")) (Stub.Answers (lit "no"))
              {| output := Some (lit "yes") |} {| output := Some (lit "no") |}
              (lit "yes") (lit "no"))
    as (w1 & w2 & H1 & H2 & _ & Hm & Ho & _);
    try reflexivity; try exact Hc.
  - vm_compute; discriminate.
  - exists w1, w2. repeat split; assumption.
Defined.

(** ** More facts about text *)


Lemma str_leb_total (a b : str) : str_leb a b = false -> str_leb b a = true.
Proof.
  revert b; induction a as [|x a IH]; intros [|y b]; simpl; try discriminate; auto.
  destruct (N.ltb_spec x y), (N.eqb_spec x y), (N.ltb_spec y x), (N.eqb_spec y x);
    simpl; try lia; auto.
Qed.

Lemma str_leb_antisym (a b : str) :
  str_leb a b = true -> str_leb b a = true -> a = b.
Proof.
  revert b; induction a as [|x a IH]; intros [|y b]; simpl; try discriminate; auto.
  destruct (N.ltb_spec x y), (N.eqb_spec x y), (N.ltb_spec y x), (N.eqb_spec y x);
    simpl; try lia; try discriminate.
  intros H1 H2. subst. f_equal. auto.
Qed.

Lemma str_leb_trans (a b c : str) :
  str_leb a b = true -> str_leb b c = true -> str_leb a c = true.
Proof.
  revert b c; induction a as [|x a IH]; intros [|y b] [|z c]; simpl;
    try discriminate; auto.
  destruct (N.ltb_spec x y), (N.eqb_spec x y), (N.ltb_spec y z), (N.eqb_spec y z),
    (N.ltb_spec x z), (N.eqb_spec x z); simpl; try lia; try discriminate; auto.
  apply IH.
Qed.

Lemma insert_sorted_swap (x y : str) (l : list str) :
  insert_sorted x (insert_sorted y l) = insert_sorted y (insert_sorted x l).
Proof.
  induction l as [|z tl IH]; simpl.
  - destruct (str_leb x y) eqn:Hxy, (str_leb y x) eqn:Hyx; try reflexivity.
    + now rewrite (str_leb_antisym _ _ Hxy Hyx).
    + apply str_leb_total in Hxy. congruence.
  - destruct (str_leb y z) eqn:Hyz, (str_leb x z) eqn:Hxz; simpl.
    + destruct (str_leb x y) eqn:Hxy, (str_leb y x) eqn:Hyx;
        rewrite ?Hyz, ?Hxz; try reflexivity.
      * now rewrite (str_leb_antisym _ _ Hxy Hyx).
      * apply str_leb_total in Hxy. congruence.
    + destruct (str_leb x y) eqn:Hxy; rewrite ?Hyz, ?Hxz.
      * rewrite (str_leb_trans _ _ _ Hxy Hyz) in Hxz. discriminate.
      * reflexivity.
    + destruct (str_leb y x) eqn:Hyx; rewrite ?Hyz, ?Hxz.
      * rewrite (str_leb_trans _ _ _ Hyx Hxz) in Hyz. discriminate.
      * reflexivity.
    + rewrite Hyz, Hxz, IH. reflexivity.
Qed.

Lemma sorted_permutation (l l' : list str) :
  Permutation l l' -> sorted l = sorted l'.
Proof.
  induction 1; simpl.
  - reflexivity.
  - unfold sorted in *. simpl. congruence.
  - unfold sorted. simpl. apply insert_sorted_swap.
  - congruence.
Qed.

Lemma lstrip_blank (pad s : str) :
  forallb isspace pad = true -> lstrip (pad ++ s) = lstrip s.
Proof.
  induction pad as [|c pad IH]; simpl; [reflexivity|].
  rewrite andb_true_iff. intros [Hc Hp]. rewrite Hc. auto.
Qed.

Lemma lstrip_app (s pad : str) :
  forallb isspace pad = true ->
  lstrip (s ++ pad) = match lstrip s with [] => [] | _ :: _ => lstrip s ++ pad end.
Proof.
  intros Hp. induction s as [|c s IH]; simpl.
  - rewrite <- (app_nil_r pad), lstrip_blank by exact Hp. reflexivity.
  - destruct (isspace c); [exact IH|reflexivity].
Qed.

Lemma rstrip_blank (s pad : str) :
  forallb isspace pad = true -> rstrip (s ++ pad) = rstrip s.
Proof.
  intros Hp. unfold rstrip. rewrite rev_app_distr, lstrip_blank; [reflexivity|].
  rewrite forallb_forall in *. intros c Hc. apply Hp. now apply in_rev.
Qed.

Lemma strip_blanks (before s after : str) :
  forallb isspace before = true ->
  forallb isspace after = true ->
  strip (before ++ s ++ after) = strip s.
Proof.
  intros Hb Ha. unfold strip. rewrite lstrip_blank by exact Hb.
  rewrite lstrip_app by exact Ha.
  destruct (lstrip s) as [|c t]; [reflexivity|].
  apply rstrip_blank. exact Ha.
Qed.

Lemma starts_with_app (a b : str) :
  starts_with a b = true <-> exists rest, b = a ++ rest.
Proof.
  revert b; induction a as [|x a IH]; intros b; simpl.
  - split; [intros _; exists b; reflexivity | reflexivity].
  - destruct b as [|y b]; simpl.
    + split; [discriminate | intros [rest H]; discriminate].
    + rewrite andb_true_iff, N.eqb_eq, IH. split.
      * intros [-> [rest ->]]. exists rest. reflexivity.
      * intros [rest H]. injection H as -> ->. split; [reflexivity|].
        exists rest. reflexivity.
Qed.

Lemma occurs_app (a b : str) :
  occurs a b = true <-> exists before after, b = before ++ a ++ after.
Proof.
  induction b as [|y b IH]; simpl.
  - rewrite orb_false_r, starts_with_app. split.
    + intros [rest H]. exists [], rest. exact H.
    + intros (before & after & H). destruct before as [|c before]; simpl in H.
      * exists after. exact H.
      * discriminate.
  - rewrite orb_true_iff, starts_with_app, IH. split.
    + intros [[rest H]|(before & after & H)].
      * exists [], rest. exact H.
      * exists (y :: before), after. simpl. now rewrite H.
    + intros (before & after & H). destruct before as [|c before]; simpl in H.
      * left. exists after. exact H.
      * right. injection H as _ H. exists before, after. exact H.
Qed.

(** ** What a run does to the session *)

Section RunFacts.

Context `{Ext : Externals}.

Ltac shown_by_query :=
  repeat (apply Forall_cons; [first [exact I | apply query_error_event]|]);
  apply Forall_nil.

Ltac no_event H :=
  simpl in H; repeat (destruct H as [H|H]; [discriminate H|]); exact (False_ind _ H).

Ltac one_image Hc :=
  let H := fresh in
  intros ? ? H; simpl in H;
  repeat (destruct H as [H|H];
          [first [discriminate H
                 | inversion H; subst;
                   split; [reflexivity|]; split; [assumption|];
                   exact (proj1 (contains_In _ _) Hc)]|]);
  exact (False_ind _ H).

Ltac query_stepped :=
  eexists; eexists; split; [reflexivity|]; unfold query_step; simpl;
  split; [rewrite <- ?app_assoc; reflexivity|];
  split; [shown_by_query|];
  split; [reflexivity|]; split; [reflexivity|]; split; [reflexivity|];
  split; [split; intros; (congruence || discriminate)|];
  split; [eexists; split; [rewrite <- ?app_assoc; simpl; reflexivity|simpl; lia]|].

Opaque lit.

Lemma handle_query_step (query : str) (w : world) :
  exists w' evs, handle_query query w = (inr tt, w') /\ query_step query w w' evs.
Proof.
  unfold handle_query, answer_query, invoke_agent, try_except, bind, get, raise,
    ret, lift, emit, modify.
  simpl.
  destruct (agent_executor (session w)) as [ae|] eqn:Ha; simpl.
  2:{ query_stepped. split; intros ? ? H; no_event H. }
  destruct (agent_invoke ae query) as [[e0|resp] ae']; simpl.
  { query_stepped. split; intros ? ? H; no_event H. }
  destruct (output resp) as [a|]; simpl.
  2:{ query_stepped. split; intros ? ? H; no_event H. }
  destruct (contains target_queries (lower (strip query))) eqn:Hc; simpl.
  - destruct (os_path_exists image_path) eqn:Hx; simpl.
    + query_stepped. split; [one_image Hc|intros ? ? H; no_event H].
    + query_stepped. split; intros ? ? H; no_event H.
  - query_stepped. split; intros ? ? H; no_event H.
Qed.

Lemma query_event_not_index (e : event) : query_event e -> ~ index_event e.
Proof. destruct e; simpl; tauto. Qed.

Lemma serve_runs (typed : option str) (w : world) :
  is_initialized (session w) = true ->
  exists w' evs, serve typed w = (inr tt, w') /\ serve_step typed w w' evs.
Proof.
  intros Hi. unfold serve, bind, get. rewrite for_each_emit. simpl. rewrite Hi.
  set (shown := map (fun m => ChatMessage (role m) (content m)) (messages (session w))).
  assert (Hs : forall e, In e shown -> exists a b, e = ChatMessage a b).
  { unfold shown. intros e He. apply in_map_iff in He.
    destruct He as (m & <- & _). eexists; eexists; reflexivity. }
  assert (Hidle : exists w' evs,
            @ret _ unit tt
              {| session := session w;
                 out := (out w ++ shown) ++ [ChatInput (placeholder true) (negb true)] |}
            = (inr tt, w')
            /\ serve_step typed w w' evs).
  { eexists; eexists. split; [reflexivity|]. unfold serve_step. simpl.
    split; [rewrite <- app_assoc; reflexivity|].
    repeat (split; [reflexivity|]).
    split; [exists []; rewrite app_nil_r; repeat split; [simpl; lia|discriminate]|].
    split; [|split].
    - intros p c H. apply in_app_iff in H. destruct H as [H|H].
      + apply Hs in H. destruct H as (a & b & H). discriminate.
      + simpl in H. destruct H as [H|[]]. discriminate.
    - intros p d H. apply in_app_iff in H. destruct H as [H|H].
      + apply Hs in H. destruct H as (a & b & H). discriminate.
      + simpl in H. destruct H as [H|[]]. inversion H. split; reflexivity.
    - intros e H. apply in_app_iff in H. destruct H as [H|H].
      + apply Hs in H. destruct H as (a & b & ->). simpl. tauto.
      + simpl in H. destruct H as [<-|[]]. simpl. tauto. }
  destruct typed as [[|c q]|]; [exact Hidle| |exact Hidle]. clear Hidle.
  match goal with
  | |- context [handle_query _ ?w1] =>
    destruct (handle_query_step (c :: q) w1) as (w' & evs & Hrun & Hstep)
  end.
  destruct Hstep as (Hout & Hev & Hv & Hf & Hini & Ha & (tail & Hm & Hl) & Him & Hci).
  simpl in *.
  exists w', ((shown ++ [ChatInput (placeholder true) (negb true)]) ++ evs).
  split; [exact Hrun|]. unfold serve_step.
  split; [rewrite Hout; now rewrite !app_assoc|].
  split; [exact Hv|]. split; [exact Hf|]. split; [exact Hini|]. split; [exact Ha|].
  split; [|split; [|split]].
  - exists (user_message (c :: q) :: tail). split; [exact Hm|]. split; [simpl; lia|].
    intros m rest H. injection H as <- _. exists (c :: q).
    repeat split. discriminate.
  - intros p c0 H. rewrite !in_app_iff in H. destruct H as [[H|H]|H].
    + apply Hs in H. destruct H as (a & b & H). discriminate.
    + simpl in H. destruct H as [H|[]]. discriminate.
    + apply Him in H. destruct H as (H1 & H2 & H3).
      split; [exact H1|]. split; [exact H2|]. exists (c :: q). split; [reflexivity|exact H3].
  - intros p d H. rewrite !in_app_iff in H. destruct H as [[H|H]|H].
    + apply Hs in H. destruct H as (a & b & H). discriminate.
    + simpl in H. destruct H as [H|[]]. inversion H. split; reflexivity.
    + exfalso. exact (Hci _ _ H).
  - intros e H. rewrite !in_app_iff in H. destruct H as [[H|H]|H].
    + apply Hs in H. destruct H as (a & b & ->). simpl. tauto.
    + simpl in H. destruct H as [<-|[]]. simpl. tauto.
    + apply query_event_not_index. rewrite Forall_forall in Hev. auto.
Qed.

Lemma session_ok_waiting (paths : list str) (s : session_state) :
  is_initialized s = false -> agent_executor s = None -> session_ok paths s.
Proof.
  intros Hi Ha. unfold session_ok. rewrite Hi, Ha.
  split; [discriminate|]. split; [congruence|discriminate].
Qed.

Lemma session_ok_ready (paths : list str) (s : session_state) :
  is_initialized s = true ->
  vector_store s <> None -> agent_executor s <> None ->
  file_names s = sorted paths ->
  session_ok paths s.
Proof. unfold session_ok. tauto. Qed.

Lemma session_ok_no_agent (paths : list str) (s : session_state) :
  session_ok paths s -> is_initialized s = false -> agent_executor s = None.
Proof.
  intros [_ [H _]] Hi. destruct (agent_executor s); [|reflexivity].
  assert (is_initialized s = true) by (apply H; discriminate). congruence.
Qed.

Lemma serve_keeps_session_ok (paths : list str) (typed : option str)
    (w w' : world) (evs : list event) :
  serve_step typed w w' evs ->
  session_ok paths (session w) -> session_ok paths (session w').
Proof.
  intros (_ & Hv & Hf & Hi & Ha & _) [H1 H2]. unfold session_ok.
  rewrite Hv, Hf, Hi. split; [exact H1|].
  split; intros H.
  - apply H2. intros Hn. apply H. apply Ha. exact Hn.
  - intros Hn. apply Ha in Hn. revert Hn. apply H2. exact H.
Qed.

Lemma run_step_via_serve (paths : list str) (typed : option str)
    (w w1 w' : world) (before evs : list event) :
  out w1 = out w ++ before ->
  messages (session w1) = messages (session w) ->
  (session_ok paths (session w) -> session_ok paths (session w1)) ->
  (forall e, In e before -> match e with Image _ _ | ChatInput _ _ => False | _ => True end) ->
  serve_step typed w1 w' evs ->
  run_step paths typed w w' (before ++ evs).
Proof.
  intros Hout Hm Hok Hq Hs.
  pose proof (serve_keeps_session_ok paths _ _ _ _ Hs) as Hk.
  destruct Hs as (Ho & _ & _ & _ & _ & Ht & Him & Hci & _).
  unfold run_step. split; [rewrite Ho, Hout; now rewrite app_assoc|].
  split; [auto|]. split; [rewrite <- Hm; exact Ht|].
  split.
  - intros p c H. apply in_app_iff in H. destruct H as [H|H]; [|eauto].
    exact (False_ind _ (Hq _ H)).
  - intros p d H. apply in_app_iff in H. destruct H as [H|H]; [|eauto].
    exact (False_ind _ (Hq _ H)).
Qed.

Lemma run_step_stopped (paths : list str) (typed : option str)
    (w w' : world) (evs : list event) :
  out w' = out w ++ evs ->
  messages (session w') = messages (session w) ->
  (session_ok paths (session w) -> session_ok paths (session w')) ->
  (forall e, In e evs -> match e with Image _ _ | ChatInput _ _ => False | _ => True end) ->
  run_step paths typed w w' evs.
Proof.
  intros Hout Hm Hok Hq. unfold run_step.
  split; [exact Hout|]. split; [exact Hok|].
  split; [exists []; rewrite app_nil_r; repeat split; [exact Hm|simpl; lia|discriminate]|].
  split; intros p c H; exact (False_ind _ (Hq _ H)).
Qed.

Lemma main_on_initialised (paths : list str) (typed : option str) (w : world) :
  is_initialized (session w) = true ->
  exists w' evs,
    main_on paths typed w = (inr tt, w') /\ serve_step typed w w' evs.
Proof.
  intros Hi. unfold main_on, bind, get, emit. simpl. rewrite Hi. simpl.
  match goal with
  | |- context [serve typed ?w1] =>
    destruct (serve_runs typed w1 Hi) as (w' & evs & Hrun & Hs)
  end.
  rewrite Hrun. exists w', (Title (lit "epsilon3.ai Agent") :: evs).
  split; [reflexivity|].
  destruct Hs as (Ho & Hv & Hf & Hin & Ha & Ht & Him & Hci & Hix). simpl in *.
  unfold serve_step.
  split; [rewrite Ho, <- app_assoc; reflexivity|].
  split; [exact Hv|]. split; [exact Hf|]. split; [exact Hin|]. split; [exact Ha|].
  split; [exact Ht|].
  split; [|split].
  - intros p c [H|H]; [discriminate|eauto].
  - intros p d [H|H]; [discriminate|eauto].
  - intros e [<-|H]; [simpl; tauto|auto].
Qed.

Ltac plain_events Hfe :=
  let e := fresh "e" in
  let H := fresh "H" in
  intros e H; rewrite ?in_app_iff in H; simpl in H;
  repeat match type of H with
         | _ \/ _ => destruct H as [H|H]
         end;
  first [ subst e; exact I
        | exact (False_ind _ H)
        | apply (file_event_in _ _ Hfe) in H; destruct e; simpl in H;
          first [exact I | contradiction] ].

Lemma main_on_runs (paths : list str) (typed : option str) (w : world) :
  exists r w' evs,
    main_on paths typed w = (r, w') /\ run_step paths typed w w' evs.
Proof.
  destruct (is_initialized (session w)) eqn:Hi.
  - destruct (main_on_initialised paths typed w Hi) as (w' & evs & Hrun & Hs).
    exists (inr tt), w', evs. split; [exact Hrun|].
    pose proof (serve_keeps_session_ok paths _ _ _ _ Hs) as Hk.
    destruct Hs as (Ho & _ & _ & _ & _ & Ht & Him & Hci & _).
    unfold run_step. tauto.
  - pose proof (file_errors_are_file_events paths) as Hfe.
    pose proof (session_ok_no_agent paths (session w)) as Hna.
    unfold main_on, bind, get. simpl. rewrite Hi. simpl.
    unfold initialize, bind, get. simpl.
    destruct (needs_rebuild (sorted paths) (session w)) eqn:Hn.
    + unfold modify. simpl. rewrite load_csv_documents_run. simpl.
      destruct (flat_map file_documents paths) as [|d0 ds] eqn:Hd.
      { simpl. eexists; eexists; eexists. split; [reflexivity|].
        apply run_step_stopped; simpl;
          [rewrite <- ?app_assoc; reflexivity | reflexivity
          | intros Hok; apply session_ok_waiting; simpl; auto
          | plain_events Hfe]. }
      unfold create_vector_store, create_agent, bind, emit, lift, ret. simpl.
      destruct (faiss_from_documents _ _) as [e|vs]; simpl.
      { eexists; eexists; eexists. split; [reflexivity|].
        apply run_step_stopped; simpl;
          [rewrite <- ?app_assoc; reflexivity | reflexivity
          | intros Hok; apply session_ok_waiting; simpl; auto
          | plain_events Hfe]. }
      destruct (faiss_save_local _ _) as [e|[]]; simpl.
      { eexists; eexists; eexists. split; [reflexivity|].
        apply run_step_stopped; simpl;
          [rewrite <- ?app_assoc; reflexivity | reflexivity
          | intros Hok; apply session_ok_waiting; simpl; auto
          | plain_events Hfe]. }
      destruct (new_agent_executor _ _ _) as [e|ae]; simpl.
      { eexists; eexists; eexists. split; [reflexivity|].
        apply run_step_stopped; simpl;
          [rewrite <- ?app_assoc; reflexivity | reflexivity
          | intros Hok; apply session_ok_waiting; simpl; auto
          | plain_events Hfe]. }
      match goal with
      | |- context [serve typed ?w1] =>
        destruct (serve_runs typed w1 eq_refl) as (w' & evs & Hrun & Hs)
      end.
      rewrite Hrun. eexists; eexists; eexists. split; [reflexivity|].
      eapply run_step_via_serve; [| | | |exact Hs]; simpl;
        [rewrite <- ?app_assoc; reflexivity | reflexivity
        | intros Hok; apply session_ok_ready; simpl; (reflexivity || discriminate)
        | plain_events Hfe].
    + apply needs_rebuild_false in Hn. destruct Hn as [Hnames Hstore].
      unfold load_existing_vector_store, create_agent, bind, emit, lift, ret, modify.
      simpl.
      destruct (faiss_load_local _ _) as [e|vs]; simpl.
      { eexists; eexists; eexists. split; [reflexivity|].
        apply run_step_stopped; simpl;
          [rewrite <- ?app_assoc; reflexivity | reflexivity
          | intros Hok; apply session_ok_waiting; simpl; auto
          | plain_events Hfe]. }
      destruct (agent_executor (session w)) as [ae0|] eqn:Ha; simpl.
      * match goal with
        | |- context [serve typed ?w1] =>
          destruct (serve_runs typed w1 eq_refl) as (w' & evs & Hrun & Hs)
        end.
        rewrite Hrun. eexists; eexists; eexists. split; [reflexivity|].
        eapply run_step_via_serve; [| | | |exact Hs]; simpl;
          [rewrite <- ?app_assoc; reflexivity | reflexivity
          | intros Hok; apply session_ok_ready; simpl;
            first [reflexivity | discriminate | rewrite Ha; discriminate | exact Hnames]
          | plain_events Hfe].
      * destruct (new_agent_executor _ _ _) as [e|ae]; simpl.
        { eexists; eexists; eexists. split; [reflexivity|].
          apply run_step_stopped; simpl;
            [rewrite <- ?app_assoc; reflexivity | reflexivity
            | intros Hok; apply session_ok_waiting; simpl; auto
            | plain_events Hfe]. }
        match goal with
        | |- context [serve typed ?w1] =>
          destruct (serve_runs typed w1 eq_refl) as (w' & evs & Hrun & Hs)
        end.
        rewrite Hrun. eexists; eexists; eexists. split; [reflexivity|].
        eapply run_step_via_serve; [| | | |exact Hs]; simpl;
          [rewrite <- ?app_assoc; reflexivity | reflexivity
          | intros Hok; apply session_ok_ready; simpl;
            first [reflexivity | discriminate | exact Hnames]
          | plain_events Hfe].
Qed.

Transparent lit.

End RunFacts.

(** ** More about [load_csv_documents] *)

Section MoreIngestionFacts.

Context `{Ext : Externals}.

Lemma join_holds_each (sep x : str) (xs : list str) :
  In x xs -> exists before after, join sep xs = before ++ x ++ after.
Proof.
  induction xs as [|y tl IH]; [contradiction|]. intros [->|H].
  - destruct tl as [|z tl].
    + exists [], []. simpl. now rewrite app_nil_r.
    + exists [], (sep ++ join sep (z :: tl)). reflexivity.
  - destruct tl as [|z tl]; [contradiction|].
    destruct (IH H) as (before & after & E).
    exists (y ++ sep ++ before), after.
    change (join sep (y :: z :: tl)) with (y ++ sep ++ join sep (z :: tl)).
    rewrite E, <- !app_assoc. reflexivity.
Qed.

(** X1: [load_csv_documents] returns as many Documents as the frames of the
    paths that [read_csv] parsed have rows, a path that failed counting for
    none. *)
Theorem documents_count (paths : list str) (w : world) :
  exists documents,
    fst (load_csv_documents paths w) = inr documents
    /\ length documents
       = list_sum (map (fun p => match read_csv p with
                                 | inr df => length (rows df)
                                 | inl _ => 0
                                 end) paths).
Proof.
  rewrite load_csv_documents_run. eexists. split; [reflexivity|].
  induction paths as [|p tl IH]; simpl; [reflexivity|].
  rewrite length_app, IH. f_equal.
  unfold file_documents, iterrows. destruct (read_csv p); [reflexivity|].
  now rewrite !length_map.
Qed.

(** X2: every Document that [load_csv_documents] returns is the Document of
    a row of the frame of one of the paths: its source is that path, its
    index that of the row and its content the content of that row. *)
Theorem documents_come_from_rows (paths : list str) (w : world)
    (documents : list Document) (d : Document) :
  fst (load_csv_documents paths w) = inr documents ->
  In d documents ->
  exists p df idx cells,
    In p paths /\ read_csv p = inr df /\ In (idx, cells) (rows df)
    /\ d = {| page_content := row_content (combine (columns df) cells);
              source := p; row_index := idx |}.
Proof.
  rewrite load_csv_documents_run. simpl. intros H Hd. injection H as <-.
  apply in_flat_map in Hd. destruct Hd as (p & Hp & Hd).
  unfold file_documents in Hd. destruct (read_csv p) as [e|df] eqn:Hr; [contradiction|].
  unfold iterrows in Hd. rewrite map_map in Hd. apply in_map_iff in Hd.
  destruct Hd as ([idx cells] & <- & Hrow).
  exists p, df, idx, cells. repeat split; assumption.
Qed.

(** X3: the Document of a row names every column of the row with its value:
    for each column [c] holding [v], the text ["c: v"] occurs in the content
    of the Document that carries the path and the index of the row. *)
Theorem content_names_every_column (paths : list str) (w : world) (p : str)
    (df : DataFrame) (idx : value) (cells : list value) (c : str) (v : value) :
  In p paths ->
  read_csv p = inr df ->
  In (idx, cells) (rows df) ->
  In (c, v) (combine (columns df) cells) ->
  exists documents d,
    fst (load_csv_documents paths w) = inr documents
    /\ In d documents
    /\ source d = p /\ row_index d = idx
    /\ occurs (c ++ lit ": " ++ format_value v) (page_content d) = true.
Proof.
  intros Hp Hr Hrow Hc. rewrite load_csv_documents_run. simpl.
  exists (flat_map file_documents paths),
    {| page_content := row_content (combine (columns df) cells);
       source := p; row_index := idx |}.
  split; [reflexivity|]. split; [|split; [reflexivity|split; [reflexivity|]]].
  - apply in_flat_map. exists p. split; [exact Hp|].
    unfold file_documents, iterrows. rewrite Hr, map_map.
    apply in_map_iff. exists (idx, cells). split; [reflexivity|exact Hrow].
  - simpl. apply occurs_app. unfold row_content. apply join_holds_each.
    apply in_map_iff. exists (c, v). split; [reflexivity|exact Hc].
Qed.

(** X4: loading a list of paths followed by another gives the Documents of
    the first followed by those of the second, and shows the errors of the
    first followed by those of the second; the session is not touched. *)
Theorem load_csv_documents_app (first second : list str) (w : world) :
  exists d1 d2 w1 w2,
    load_csv_documents first w = (inr d1, w1)
    /\ load_csv_documents second w1 = (inr d2, w2)
    /\ load_csv_documents (first ++ second) w = (inr (d1 ++ d2), w2)
    /\ session w2 = session w.
Proof.
  rewrite !load_csv_documents_run. do 4 eexists.
  split; [reflexivity|]. rewrite load_csv_documents_run.
  split; [reflexivity|]. rewrite !flat_map_app, log_log.
  split; reflexivity.
Qed.

End MoreIngestionFacts.

(** ** More about [main] *)

Section SessionFacts.

Context `{Ext : Externals}.

Lemma list_eqb_refl (l : list str) : list_eqb l l = true.
Proof. apply list_eqb_eq. reflexivity. Qed.


(** X5: the test that decides between building and loading compares sorted
    lists, so listing the same paths in another order changes nothing. *)
Theorem rebuild_test_ignores_path_order (paths paths' : list str) (s : session_state) :
  Permutation paths paths' ->
  sorted paths = sorted paths'
  /\ needs_rebuild (sorted paths) s = needs_rebuild (sorted paths') s.
Proof.
  intros H. apply sorted_permutation in H. rewrite H. split; reflexivity.
Qed.


(** X7: a run never drops or rewrites a message: the history it leaves is
    the one it found followed by at most two messages, and when it adds any
    the first is the question the user typed, which was not empty. *)
Theorem history_only_grows (paths : list str) (typed : option str) (w : world) :
  exists r w' tail,
    main_on paths typed w = (r, w')
    /\ messages (session w') = messages (session w) ++ tail
    /\ length tail <= 2
    /\ (forall m rest, tail = m :: rest ->
          exists q, typed = Some q /\ q <> [] /\ m = user_message q).
Proof.
  destruct (main_on_runs paths typed w) as (r & w' & evs & Hrun & Hstep).
  destruct Hstep as (_ & _ & (tail & Hm & Hl & Hq) & _).
  exists r, w', tail. repeat split; assumption.
Qed.

(** X8: on an initialised session a run never raises and leaves the index
    alone: nothing is embedded, saved or loaded, and the vector store, the
    file names and the flag stay as they were. *)
Theorem initialised_run_leaves_index_alone
    (paths : list str) (typed : option str) (w : world) :
  is_initialized (session w) = true ->
  exists w' evs,
    main_on paths typed w = (inr tt, w')
    /\ out w' = out w ++ evs
    /\ (forall e, In e evs -> ~ index_event e)
    /\ vector_store (session w') = vector_store (session w)
    /\ file_names (session w') = file_names (session w)
    /\ is_initialized (session w') = true.
Proof.
  intros Hi.
  destruct (main_on_initialised paths typed w Hi) as (w' & evs & Hrun & Hs).
  destruct Hs as (Ho & Hv & Hf & Hin & _ & _ & _ & _ & Hix).
  exists w', evs. repeat split; try assumption. congruence.
Qed.

(** X9: whenever a run shows the chat box, the box is enabled and carries
    the text of an initialised session, [placeholder true]; the disabled box
    with the waiting text is never shown. *)
Theorem chat_box_is_never_disabled (paths : list str) (typed : option str) (w : world) :
  exists r w' evs,
    main_on paths typed w = (r, w')
    /\ out w' = out w ++ evs
    /\ forall p d,
         In (ChatInput p d) evs ->
         p = placeholder true /\ d = false.
Proof.
  destruct (main_on_runs paths typed w) as (r & w' & evs & Hrun & Hstep).
  destruct Hstep as (Ho & _ & _ & _ & Hci).
  exists r, w', evs. split; [exact Hrun|]. split; [exact Ho|].
  intros p d H. exact (Hci p d H).
Qed.

(** X10: a run shows an image only for the fixed path, only if that file
    exists, and only when the user typed a query whose stripped, lower-cased
    form is one of the two graph-request phrases. *)
Theorem image_only_for_graph_requests (paths : list str) (typed : option str) (w : world) :
  exists r w' evs,
    main_on paths typed w = (r, w')
    /\ out w' = out w ++ evs
    /\ forall p c,
         In (Image p c) evs ->
         p = image_path /\ os_path_exists image_path = true
         /\ exists q, typed = Some q /\ In (lower (strip q)) target_queries.
Proof.
  destruct (main_on_runs paths typed w) as (r & w' & evs & Hrun & Hstep).
  destruct Hstep as (Ho & _ & _ & Him & _).
  exists r, w', evs. split; [exact Hrun|]. split; [exact Ho|exact Him].
Qed.

Lemma answer_query_plain (query : str) (w : world) ae ae' resp a :
  agent_executor (session w) = Some ae ->
  agent_invoke ae query = (inr resp, ae') ->
  output resp = Some a ->
  contains target_queries (lower (strip query)) = false ->
  answer_query query w
  = (inr tt,
     {| session := append_message (assistant_message a)
                     (set_agent_executor (Some ae') (session w));
        out := out w ++ [Invoke query; ChatMessage (lit "assistant") a] |}).
Proof.
  intros Ha Hi Ho Hc.
  unfold answer_query, invoke_agent, bind, get, raise, ret, lift, emit, modify.
  rewrite Ha; simpl. rewrite Hi; simpl. rewrite Ho, Hc; simpl.
  rewrite <- !app_assoc. reflexivity.
Qed.

(** X11: for a query that is not a graph request, when the call of the
    agent returns an answer, that answer is recorded and shown as it is,
    after the question, and the executor of the session is the one the call
    left. *)
Theorem plain_query_answer (paths : list str) (query : str) (w : world)
    (ae ae' : AgentExecutor) (resp : response) (a : str) :
  is_initialized (session w) = true ->
  query <> [] ->
  ~ In (lower (strip query)) target_queries ->
  agent_executor (session w) = Some ae ->
  agent_invoke ae query = (inr resp, ae') ->
  output resp = Some a ->
  exists w',
    main_on paths (Some query) w = (inr tt, w')
    /\ messages (session w')
       = messages (session w) ++ [user_message query; assistant_message a]
    /\ agent_executor (session w') = Some ae'
    /\ out w'
       = out w ++ page_head (session w)
         ++ [ChatMessage (lit "user") query; Invoke query;
             ChatMessage (lit "assistant") a].
Proof.
  intros Hi Hq Hn Ha Hv Ho.
  assert (Hc : contains target_queries (lower (strip query)) = false).
  { destruct (contains target_queries (lower (strip query))) eqn:E; [|reflexivity].
    apply contains_In in E. contradiction. }
  destruct query as [|c q]; [congruence|].
  rewrite main_on_ready with (c := c) (q := q) by (assumption || reflexivity).
  unfold try_except.
  rewrite (answer_query_plain (c :: q) (at_try (c :: q) w) ae ae' resp a);
    try assumption.
  eexists. split; [reflexivity|]. simpl. split; [|split; [reflexivity|]].
  - rewrite <- app_assoc. reflexivity.
  - unfold page_head. simpl. repeat (rewrite <- app_assoc; simpl). reflexivity.
Qed.

(** X12: a run on an initialised session with nothing typed, or with the
    empty text, only draws the page again: the title, the history and the
    chat box; the session is left as it was. *)
Theorem idle_run_redraws (paths : list str) (typed : option str) (w : world) :
  is_initialized (session w) = true ->
  typed = None \/ typed = Some [] ->
  main_on paths typed w = (inr tt, log (page_head (session w)) w).
Proof.
  intros Hi Ht. unfold main_on, bind, get, emit. simpl. rewrite Hi. simpl.
  unfold serve, bind, get. rewrite for_each_emit. simpl. rewrite Hi.
  unfold log, page_head, ret. simpl.
  destruct Ht as [->| ->]; simpl; repeat (rewrite <- app_assoc; simpl); reflexivity.
Qed.

(** X13: when ingestion yields no Document the run records the sorted paths
    as file names all the same and stays uninitialised; the next run of the
    session builds again exactly if the session held no vector store, and
    otherwise takes the branch that loads the saved index. *)
Theorem failed_ingestion_next_run (paths : list str) (typed : option str) (w : world) :
  is_initialized (session w) = false ->
  needs_rebuild (sorted paths) (session w) = true ->
  flat_map file_documents paths = [] ->
  exists w',
    main_on paths typed w = (inr tt, w')
    /\ file_names (session w') = sorted paths
    /\ is_initialized (session w') = false
    /\ (needs_rebuild (sorted paths) (session w') = true
        <-> vector_store (session w) = None).
Proof.
  intros Hi Hn Hd.
  unfold main_on, bind, get. simpl. rewrite Hi. simpl.
  unfold initialize, bind, get. simpl. rewrite Hn.
  unfold modify. simpl. rewrite load_csv_documents_run. simpl. rewrite Hd. simpl.
  eexists. split; [reflexivity|]. simpl.
  split; [reflexivity|]. split; [exact Hi|].
  unfold needs_rebuild. simpl. rewrite list_eqb_refl. simpl.
  destruct (vector_store (session w)); split; congruence.
Qed.

(** X14: blanks around a query do not change whether it is taken for a
    graph request. *)
Theorem graph_matching_ignores_blanks (before query after : str) :
  forallb isspace before = true ->
  forallb isspace after = true ->
  (In (lower (strip (before ++ query ++ after))) target_queries
   <-> In (lower (strip query)) target_queries).
Proof.
  intros Hb Ha. rewrite strip_blanks by assumption. reflexivity.
Qed.

End SessionFacts.

(** ** The helpers outside [main] *)

Section HelperFacts.

Context `{Ext : Externals}.

Lemma first_division_some (todo : list str) (query d : str) :
  first_division todo query = Some d ->
  exists earlier later,
    todo = earlier ++ d :: later
    /\ occurs (lower d) (lower query) = true
    /\ forall d', In d' earlier -> occurs (lower d') (lower query) = false.
Proof.
  induction todo as [|x tl IH]; simpl; [discriminate|].
  destruct (occurs (lower x) (lower query)) eqn:Hx.
  - intros H. injection H as <-. exists [], tl.
    split; [reflexivity|]. split; [exact Hx|]. intros d' [].
  - intros H. destruct (IH H) as (earlier & later & -> & Hd & He).
    exists (x :: earlier), later. split; [reflexivity|]. split; [exact Hd|].
    intros d' [<-|H']; [exact Hx|auto].
Qed.

Lemma first_division_none (todo : list str) (query : str) :
  first_division todo query = None
  <-> forall d, In d todo -> occurs (lower d) (lower query) = false.
Proof.
  induction todo as [|x tl IH]; simpl.
  - split; [intros _ d []|reflexivity].
  - destruct (occurs (lower x) (lower query)) eqn:Hx.
    + split; [discriminate|]. intros H. specialize (H x (or_introl eq_refl)).
      congruence.
    + rewrite IH. split.
      * intros H d [<-|Hd]; auto.
      * intros H d Hd. apply H. right. exact Hd.
Qed.

(** X15: when [extract_division_name] returns a division, it is one of the
    nine of the list, its lower-cased name occurs in the lower-cased query,
    and no division before it in the list does: the first match wins. *)
Theorem extract_division_name_first_match (query d : str) :
  extract_division_name query = Some d ->
  exists earlier later,
    divisions = earlier ++ d :: later
    /\ (exists before after, lower query = before ++ lower d ++ after)
    /\ forall d', In d' earlier ->
         ~ exists before after, lower query = before ++ lower d' ++ after.
Proof.
  intros H. apply first_division_some in H.
  destruct H as (earlier & later & Hd & Ho & He).
  exists earlier, later. split; [exact Hd|]. split; [apply occurs_app; exact Ho|].
  intros d' Hd' Hx. apply occurs_app in Hx. rewrite (He d' Hd') in Hx. discriminate.
Qed.

(** X16: [extract_division_name] returns [None] exactly when the lower-cased
    name of none of the nine divisions occurs in the lower-cased query. *)
Theorem extract_division_name_none (query : str) :
  extract_division_name query = None
  <-> forall d, In d divisions ->
        ~ exists before after, lower query = before ++ lower d ++ after.
Proof.
  unfold extract_division_name. rewrite first_division_none. split.
  - intros H d Hd Hx. apply occurs_app in Hx. rewrite (H d Hd) in Hx. discriminate.
  - intros H d Hd. destruct (occurs (lower d) (lower query)) eqn:E; [|reflexivity].
    exfalso. apply (H d Hd). apply occurs_app. exact E.
Qed.


End HelperFacts.

(** ** The added facts on the stand-ins *)

Lemma documents_come_from_rows_witness :
  exists documents d,
    fst (load_csv_documents [Stub.main_metrics_csv] (Stub.fresh true)) = inr documents
    /\ In d documents
    /\ exists p df idx cells,
         In p [Stub.main_metrics_csv] /\ read_csv p = inr df
         /\ In (idx, cells) (rows df)
         /\ d = {| page_content := row_content (combine (columns df) cells);
                   source := p; row_index := idx |}.
Proof.
  assert (Hrun : fst (load_csv_documents [Stub.main_metrics_csv] (Stub.fresh true))
                 = inr (flat_map file_documents [Stub.main_metrics_csv]))
    by (rewrite load_csv_documents_run; reflexivity).
  assert (Hin : In (make_document Stub.main_metrics_csv
                      (VInt 0, combine (columns Stub.abc_frame)
                                 [VInt 1; VStr (lit "x"); VFloat (lit "2.5")]))
                  (flat_map file_documents [Stub.main_metrics_csv]))
    by (left; reflexivity).
  eexists; eexists. split; [exact Hrun|]. split; [exact Hin|].
  exact (documents_come_from_rows [Stub.main_metrics_csv] (Stub.fresh true) _ _ Hrun Hin).
Defined.

Lemma content_names_every_column_witness :
  In Stub.main_metrics_csv csv_paths
  /\ read_csv Stub.main_metrics_csv = inr Stub.abc_frame
  /\ exists documents d,
       fst (load_csv_documents csv_paths (Stub.fresh true)) = inr documents
       /\ In d documents
       /\ source d = Stub.main_metrics_csv /\ row_index d = VInt 1
       /\ occurs (lit "b" ++ lit ": " ++ format_value (VStr (lit "y")))
            (page_content d) = true.
Proof.
  assert (Hp : In Stub.main_metrics_csv csv_paths) by (vm_compute; left; reflexivity).
  split; [exact Hp|]. split; [reflexivity|].
  apply (content_names_every_column csv_paths (Stub.fresh true)
           Stub.main_metrics_csv Stub.abc_frame (VInt 1)
           [VInt 2; VStr (lit "y"); VFloat (lit "nan")] (lit "b") (VStr (lit "y")) Hp eq_refl).
  - right; left; reflexivity.
  - right; left; reflexivity.
Defined.

Lemma rebuild_test_ignores_path_order_witness :
  Permutation [lit "b.csv"; lit "a.csv"] [lit "a.csv"; lit "b.csv"]
  /\ sorted [lit "b.csv"; lit "a.csv"] = sorted [lit "a.csv"; lit "b.csv"].
Proof.
  split; [apply perm_swap|].
  exact (proj1 (rebuild_test_ignores_path_order
                  [lit "b.csv"; lit "a.csv"] [lit "a.csv"; lit "b.csv"]
                  (session (Stub.fresh true)) (perm_swap _ _ _))).
Defined.


Lemma initialised_run_leaves_index_alone_witness :
  is_initialized (session (Stub.ready true (Stub.Answers (lit "ok")) [])) = true
  /\ exists w' evs,
       main_on csv_paths (Some (lit "arpu?"))
         (Stub.ready true (Stub.Answers (lit "ok")) [])
       = (inr tt, w')
       /\ out w' = out (Stub.ready true (Stub.Answers (lit "ok")) []) ++ evs
       /\ (forall e, In e evs -> ~ index_event e).
Proof.
  split; [reflexivity|].
  destruct (initialised_run_leaves_index_alone csv_paths (Some (lit "arpu?"))
              (Stub.ready true (Stub.Answers (lit "ok")) []) eq_refl)
    as (w' & evs & Hrun & Hout & Hix & _).
  exists w', evs. split; [exact Hrun|]. split; [exact Hout|exact Hix].
Defined.

Lemma plain_query_answer_witness :
  is_initialized (session (Stub.ready true (Stub.Answers (lit "ok")) [])) = true
  /\ lit "arpu?" <> []
  /\ ~ In (lower (strip (lit "arpu?"))) target_queries
  /\ exists w',
       main_on csv_paths (Some (lit "arpu?"))
         (Stub.ready true (Stub.Answers (lit "ok")) [])
       = (inr tt, w')
       /\ messages (session w')
          = [] ++ [user_message (lit "arpu?"); assistant_message (lit "ok")].
Proof.
  assert (Hq : lit "arpu?" <> []) by (vm_compute; discriminate).
  assert (Hn : ~ In (lower (strip (lit "arpu?"))) target_queries).
  { intros H. apply contains_In in H. vm_compute in H. discriminate. }
  split; [reflexivity|]. split; [exact Hq|]. split; [exact Hn|].
  destruct (plain_query_answer csv_paths (lit "arpu?")
              (Stub.ready true (Stub.Answers (lit "ok")) [])
              (Stub.Answers (lit "ok")) (Stub.Answers (lit "ok"))
              {| output := Some (lit "ok") |} (lit "ok")
              eq_refl Hq Hn eq_refl eq_refl eq_refl)
    as (w' & Hrun & Hm & _).
  exists w'. split; assumption.
Defined.

Lemma idle_run_redraws_witness :
  is_initialized (session (Stub.ready true (Stub.Answers (lit "ok")) [])) = true
  /\ main_on csv_paths None (Stub.ready true (Stub.Answers (lit "ok")) [])
     = (inr tt,
        log (page_head (session (Stub.ready true (Stub.Answers (lit "ok")) [])))
          (Stub.ready true (Stub.Answers (lit "ok")) [])).
Proof.
  split; [reflexivity|].
  exact (idle_run_redraws csv_paths None
           (Stub.ready true (Stub.Answers (lit "ok")) []) eq_refl (or_introl eq_refl)).
Defined.

Lemma failed_ingestion_next_run_witness :
  is_initialized (session (Stub.fresh true)) = false
  /\ needs_rebuild (sorted [lit "csv_data/missing.csv"]) (session (Stub.fresh true)) = true
  /\ flat_map file_documents [lit "csv_data/missing.csv"] = []
  /\ exists w',
       main_on [lit "csv_data/missing.csv"] None (Stub.fresh true) = (inr tt, w')
       /\ file_names (session w') = sorted [lit "csv_data/missing.csv"]
       /\ is_initialized (session w') = false
       /\ (needs_rebuild (sorted [lit "csv_data/missing.csv"]) (session w') = true
           <-> vector_store (session (Stub.fresh true)) = None).
Proof.
  assert (Hd : flat_map file_documents [lit "csv_data/missing.csv"] = [])
    by (vm_compute; reflexivity).
  split; [reflexivity|]. split; [reflexivity|]. split; [exact Hd|].
  exact (failed_ingestion_next_run [lit "csv_data/missing.csv"] None (Stub.fresh true)
           eq_refl eq_refl Hd).
Defined.

Lemma graph_matching_ignores_blanks_witness :
  forallb isspace [32; 9]%N = true
  /\ forallb isspace [10]%N = true
  /\ In (lower (strip ([32; 9]%N ++ Stub.second_phrase ++ [10]%N))) target_queries.
Proof.
  split; [reflexivity|]. split; [reflexivity|].
  apply (graph_matching_ignores_blanks [32; 9]%N Stub.second_phrase [10]%N
           eq_refl eq_refl).
  apply contains_In. vm_compute. reflexivity.
Defined.

Lemma extract_division_name_first_match_witness :
  extract_division_name Stub.division_question
  = Some (lit "Дирекция телеком-комплектации")
  /\ exists earlier later,
       divisions = earlier ++ lit "Дирекция телеком-комплектации" :: later
       /\ exists before after,
            lower Stub.division_question
            = before ++ lower (lit "Дирекция телеком-комплектации") ++ after.
Proof.
  assert (H : extract_division_name Stub.division_question
              = Some (lit "Дирекция телеком-комплектации"))
    by (vm_compute; reflexivity).
  split; [exact H|].
  destruct (extract_division_name_first_match Stub.division_question _ H)
    as (earlier & later & Hd & Ho & _).
  exists earlier, later. split; [exact Hd|exact Ho].
Defined.
